(** * go-gen-struct: the setter generator, embedded and checked

    The program scans Go source files for type declarations whose doc
    comment carries [//gen:setters], and writes for each such file a
    companion [*_setters.go] with one setter per target field.

    The embedding follows [main.go]: the syntax tree is the part of
    [go/ast] the program looks at, Go panics are an explicit outcome,
    the file system is a finite map from paths to contents, and the
    things the program does not decide itself (the parser, the source
    formatter, the order in which Go ranges over a map and the failures of
    a write) are variables of the section that holds the program. *)

From Stdlib Require Import Ascii.
From Stdlib Require String.
From stdpp Require Import base option list strings gmap fin_maps.

(** ** Outcomes

    A Go call either returns or panics; a panic unwinds through every
    caller, since nothing in the program recovers. *)

Inductive outcome (A : Type) : Type :=
| Return (a : A)
| Panic (msg : string).
Arguments Return {A} a.
Arguments Panic {A} msg.

#[global] Instance outcome_ret : MRet outcome := fun _ a => Return a.
#[global] Instance outcome_bind : MBind outcome := fun _ _ k m =>
  match m with
  | Return a => k a
  | Panic msg => Panic msg
  end.

(** A Go [error] value: [None] is [nil]. *)
Definition error : Type := option string.

(** [for _, x := range xs { acc = body(x, acc) }] with a body that may panic. *)
Fixpoint forRange {A S : Type} (xs : list A) (body : A -> S -> outcome S)
    (acc : S) : outcome S :=
  match xs with
  | [] => Return acc
  | x :: rest => acc' ← body x acc; forRange rest body acc'
  end.

(** ** The pieces of the Go library the program calls *)

Module strings.

Fixpoint HasPrefix (s prefix : string) : bool :=
  match prefix, s with
  | EmptyString, _ => true
  | String p prefix', String c s' =>
      if Ascii.eqb p c then HasPrefix s' prefix' else false
  | String _ _, EmptyString => false
  end.

(** [strings.Contains(s, substr)]. *)
Fixpoint Contains (s substr : string) : bool :=
  HasPrefix s substr ||
  match s with
  | EmptyString => false
  | String _ s' => Contains s' substr
  end.

(** [strings.Split(s, sep)] for a non-empty [sep]: [skip] counts the bytes
    of a separator just matched that are still to be passed over, [cur]
    is the piece being collected. *)
Fixpoint split_from (sep : string) (skip : nat) (cur s : string) : list string :=
  match s with
  | EmptyString => [cur]
  | String c s' =>
      match skip with
      | S k => split_from sep k cur s'
      | O =>
          if HasPrefix s sep
          then cur :: split_from sep (String.length sep - 1) "" s'
          else split_from sep 0 (cur +:+ String c "") s'
      end
  end.

Definition Split (s sep : string) : list string := split_from sep 0 "" s.

Definition HasSuffix (s suffix : string) : bool :=
  let n := String.length s in
  let k := String.length suffix in
  (k <=? n)%nat && String.eqb (String.substring (n - k) k s) suffix.

Definition TrimSuffix (s suffix : string) : string :=
  if HasSuffix s suffix
  then String.substring 0 (String.length s - String.length suffix) s
  else s.

(** [strings.Join(elems, sep)]. *)
Fixpoint Join (elems : list string) (sep : string) : string :=
  match elems with
  | [] => ""
  | [e] => e
  | e :: rest => e +:+ sep +:+ Join rest sep
  end.

End strings.

(** [path/filepath] on a system whose separator is [/]. *)
Module filepath.

(** The elements of a path: the pieces between separators. *)
Definition elements (path : string) : list string := strings.Split path "/".

(** One element against the elements kept so far (innermost first), as
    [Clean] documents it: empty and [.] elements vanish, [..] removes the
    element before it, is dropped at the root and is kept at the start of
    a relative path. *)
Definition clean_step (rooted : bool) (kept : list string) (e : string) : list string :=
  if String.eqb e "" || String.eqb e "." then kept
  else if String.eqb e ".." then
    match kept with
    | top :: below => if String.eqb top ".." then e :: kept else below
    | [] => if rooted then [] else [e]
    end
  else e :: kept.

Definition Clean (path : string) : string :=
  let rooted := strings.HasPrefix path "/" in
  let kept := rev (fold_left (clean_step rooted) (elements path) []) in
  let body := strings.Join kept "/" in
  if rooted then "/" +:+ body
  else if String.eqb body "" then "." else body.

(** Trailing separators removed. *)
Fixpoint strip_trailing (path : string) : string :=
  match path with
  | EmptyString => ""
  | String c rest =>
      match strip_trailing rest with
      | EmptyString => if Ascii.eqb c "/"%char then "" else String c ""
      | tail => String c tail
      end
  end.

(** What follows the last separator; the whole string when there is none. *)
Fixpoint after_last_sep (path : string) : string :=
  match path with
  | EmptyString => ""
  | String c rest =>
      if strings.Contains rest "/" then after_last_sep rest
      else if Ascii.eqb c "/"%char then rest
      else path
  end.

(** What precedes the last separator, that separator included. *)
Fixpoint upto_last_sep (path : string) : string :=
  match path with
  | EmptyString => ""
  | String c rest =>
      if strings.Contains path "/" then String c (upto_last_sep rest) else ""
  end.

Definition Base (path : string) : string :=
  if String.eqb path "" then "."
  else
    let last := after_last_sep (strip_trailing path) in
    if String.eqb last "" then "/" else last.

Definition Dir (path : string) : string := Clean (upto_last_sep path).

(** [filepath.Join]: leading empty elements are ignored, the rest are
    joined by the separator and cleaned. *)
Fixpoint Join (elem : list string) : string :=
  match elem with
  | [] => ""
  | e :: rest =>
      if String.eqb e "" then Join rest else Clean (strings.Join elem "/")
  end.

End filepath.

(** ** The syntax tree ([go/token] and [go/ast], as far as the program
    inspects them) *)

Module token.
Inductive Token := IMPORT | CONST | TYPE | VAR.
End token.

Module ast.

Inductive ChanDir := SEND | RECV | SEND_RECV.

(** Expressions.  [NilExpr] is the nil interface value (the length of a
    slice type, for one); the kinds from [StructType] on are those the
    type printer has no case for, and [OtherExpr] stands for every
    remaining expression kind, named by its Go type. *)
Inductive Expr : Type :=
| NilExpr
| Ident (Name : string)
| StarExpr (X : Expr)
| SelectorExpr (X : Expr) (Sel : string)
| ArrayType (Len : Expr) (Elt : Expr)
| MapType (Key Value : Expr)
| InterfaceType (Methods : list Field)
| ChanType (Dir : ChanDir) (Value : Expr)
| Ellipsis (Elt : Expr)
| StructType (Fields : list Field)
| FuncType (Params Results : list Field)
| ParenExpr (X : Expr)
| IndexExpr (X Index : Expr)
| BasicLit (Value : string)
| BadExpr
| OtherExpr (goType : string)
with Field : Type :=
| mkField (Names : list string) (Typ : Expr).

Definition Names (f : Field) : list string := let 'mkField ns _ := f in ns.
Definition Typ (f : Field) : Expr := let 'mkField _ t := f in t.

Record Comment := { Text : string }.
Record CommentGroup := { List : list Comment }.

Record ImportSpec := { Alias : option string; PathValue : string }.
Record TypeSpec := { SpecName : string; SpecType : Expr }.

Inductive Spec :=
| AnImportSpec (s : ImportSpec)
| AValueSpec (names : list string)
| ATypeSpec (s : TypeSpec).

Record GenDecl := { Doc : option CommentGroup; Tok : token.Token; Specs : list Spec }.

(** A top-level declaration, with the declaration groups nested in it in
    source order: those in the body of a function, and those in the
    function literals of a declaration group.  The program looks at
    nothing else of them. *)
Inductive Decl :=
| AGenDecl (d : GenDecl) (nested : list GenDecl)
| AFuncDecl (name : string) (locals : list GenDecl).

Record File := { Name : string; Decls : list Decl; Imports : list ImportSpec }.

(** The nodes [ast.Inspect] hands to its callback, depth first.  Only
    [GenDecl] nodes are told apart: the callback of the program returns
    at once on any other node, and it never prunes the walk. *)
Inductive Node :=
| FileNode
| GenDeclNode (d : GenDecl)
| OtherNode.

Definition declNodes (d : Decl) : list Node :=
  match d with
  | AGenDecl g nested => GenDeclNode g :: map GenDeclNode nested
  | AFuncDecl _ locals => OtherNode :: map GenDeclNode locals
  end.

Definition nodes (node : File) : list Node :=
  FileNode :: flat_map declNodes (Decls node).

(** [ast.Inspect(node, f)] for a callback that always answers [true]:
    the callback runs on every node in turn, threading the variables it
    has captured. *)
Definition Inspect {S : Type} (node : File) (f : Node -> S -> outcome S)
    (captured : S) : outcome S :=
  forRange (nodes node) f captured.

End ast.

(** ** The program *)

Definition targetFields : list string := ["CreatedAt"; "UpdatedAt"].

Record targetStructs := {
  path : string;
  filename : string;
  packageName : string;
  imports : list string;
  structs : list ast.TypeSpec
}.

Record setter := { StructName : string; FieldName : string; FieldType : string }.

Record templateData := {
  PackageName : string;
  Imports : list string;
  Setters : list setter
}.

Record usedImport := { pkg : string; used : bool }.

(** The file system: contents by path. *)
Abbreviation FS := (gmap string string).

(** [x[1 : len(x)-1]] on a string; Go panics when the bounds cross. *)
Definition slice_1_to_len_minus_1 (x : string) : outcome string :=
  if (2 <=? String.length x)%nat
  then Return (String.substring 1 (String.length x - 2) x)
  else Panic "slice bounds out of range".

(** The struct type specs of a declaration group (the loop over
    [genDecl.Specs]). *)
Fixpoint structSpecs (specs : list ast.Spec) : list ast.TypeSpec :=
  match specs with
  | [] => []
  | ast.ATypeSpec typeSpec :: rest =>
      match ast.SpecType typeSpec with
      | ast.StructType _ => typeSpec :: structSpecs rest
      | _ => structSpecs rest
      end
  | _ :: rest => structSpecs rest
  end.

(** The callback handed to [ast.Inspect]; the captured variables are
    [structs] and [imports]. *)
Definition inspectNode (node : ast.File) (n : ast.Node)
    (captured : list ast.TypeSpec * list string)
    : outcome (list ast.TypeSpec * list string) :=
  match n with
  | ast.GenDeclNode genDecl =>
      match ast.Tok genDecl, ast.Doc genDecl with
      | token.TYPE, Some doc =>
          imports ← forRange (ast.Imports node)
                      (fun importSpec imports =>
                         p ← slice_1_to_len_minus_1 (ast.PathValue importSpec);
                         mret (imports ++ [p]))
                      [];
          structs ← forRange (ast.List doc)
                      (fun comment structs =>
                         if strings.HasPrefix (ast.Text comment) "//gen:setters"
                         then mret (structs ++ structSpecs (ast.Specs genDecl))
                         else mret structs)
                      [];
          mret (structs, imports)
      | _, _ => mret captured
      end
  | _ => mret captured
  end.

(** [%T] of an expression, for the panic message. *)
Definition goTypeName (expr : ast.Expr) : string :=
  match expr with
  | ast.NilExpr => "<nil>"
  | ast.Ident _ => "*ast.Ident"
  | ast.StarExpr _ => "*ast.StarExpr"
  | ast.SelectorExpr _ _ => "*ast.SelectorExpr"
  | ast.ArrayType _ _ => "*ast.ArrayType"
  | ast.MapType _ _ => "*ast.MapType"
  | ast.InterfaceType _ => "*ast.InterfaceType"
  | ast.ChanType _ _ => "*ast.ChanType"
  | ast.Ellipsis _ => "*ast.Ellipsis"
  | ast.StructType _ => "*ast.StructType"
  | ast.FuncType _ _ => "*ast.FuncType"
  | ast.ParenExpr _ => "*ast.ParenExpr"
  | ast.IndexExpr _ _ => "*ast.IndexExpr"
  | ast.BasicLit _ => "*ast.BasicLit"
  | ast.BadExpr => "*ast.BadExpr"
  | ast.OtherExpr goType => goType
  end.

Fixpoint getFiledTypeString (expr : ast.Expr) : outcome string :=
  match expr with
  | ast.Ident name => mret name
  | ast.StarExpr x =>
      sx ← getFiledTypeString x; mret ("*" +:+ sx)
  | ast.SelectorExpr x sel =>
      sx ← getFiledTypeString x; mret (sx +:+ "." +:+ sel)
  | ast.ArrayType _ elt =>
      se ← getFiledTypeString elt; mret ("[]" +:+ se)
  | ast.MapType key value =>
      sk ← getFiledTypeString key;
      sv ← getFiledTypeString value;
      mret ("map[" +:+ sk +:+ "]" +:+ sv)
  | ast.InterfaceType _ => mret "interface{}"
  | ast.ChanType _ value =>
      sv ← getFiledTypeString value; mret ("chann " +:+ sv)
  | ast.Ellipsis elt =>
      se ← getFiledTypeString elt; mret ("..." +:+ se)
  | _ => Panic ("unsupported type: " +:+ goTypeName expr)
  end.

Fixpoint containsTargetField (f : string) (targets : list string) : bool :=
  match targets with
  | [] => false
  | target :: rest =>
      if String.eqb f target then true else containsTargetField f rest
  end.

(** *** The template

    [html/template] escapes every value it inserts.  The template has no
    [<], so each action sits in HTML text, where the escaper is the byte
    replacement below. *)

Definition nl : string := String (ascii_of_nat 10) EmptyString.
Definition tab : string := String (ascii_of_nat 9) EmptyString.
Definition dquote : string := String (ascii_of_nat 34) EmptyString.

Definition htmlReplacement (c : ascii) : option string :=
  match nat_of_ascii c with
  | 0 => Some (String (ascii_of_nat 239) (String (ascii_of_nat 191)
                 (String (ascii_of_nat 189) EmptyString)))
  | 34 => Some "&#34;"
  | 38 => Some "&amp;"
  | 39 => Some "&#39;"
  | 43 => Some "&#43;"
  | 60 => Some "&lt;"
  | 62 => Some "&gt;"
  | _ => None
  end.

Fixpoint htmlEscaper (s : string) : string :=
  match s with
  | EmptyString => EmptyString
  | String c rest =>
      match htmlReplacement c with
      | Some repl => repl +:+ htmlEscaper rest
      | None => String c (htmlEscaper rest)
      end
  end.

(** The body of [{{range .Imports}}]. *)
Definition importLine (imp : string) : string :=
  nl +:+ tab +:+ dquote +:+ htmlEscaper imp +:+ dquote +:+ nl.

(** The body of [{{range .Setters}}]. *)
Definition setterMethod (s : setter) : string :=
  nl +:+ "func (s *" +:+ htmlEscaper (StructName s) +:+ ") Set"
     +:+ htmlEscaper (FieldName s) +:+ "(v " +:+ htmlEscaper (FieldType s)
     +:+ ") {" +:+ nl
     +:+ tab +:+ "s." +:+ htmlEscaper (FieldName s) +:+ " = v" +:+ nl
     +:+ "}" +:+ nl.

(** [setterTemplate], executed on its data. *)
Definition setterTemplate (data : templateData) : string :=
  nl +:+ "package " +:+ htmlEscaper (PackageName data) +:+ nl
     +:+ nl
     +:+ "import (" +:+ nl
     +:+ String.concat "" (map importLine (Imports data))
     +:+ nl +:+ ")" +:+ nl
     +:+ nl
     +:+ String.concat "" (map setterMethod (Setters data))
     +:+ nl.

(** *** Synthesis: the loops of [generateTargetSetter] *)

Definition newImportsMap (imports : list string) : gmap string usedImport :=
  fold_left (fun importsMap imp =>
               <[filepath.Base imp := {| pkg := imp; used := false |}]> importsMap)
            imports ∅.

Definition setUsed (imp : usedImport) : usedImport :=
  {| pkg := pkg imp; used := true |}.

(** Lines 156-161: the import named before the first [.] of the printed
    type is marked, when there is one. *)
Definition markImport (fieldType : string) (importsMap : gmap string usedImport)
    : outcome (gmap string usedImport) :=
  if strings.Contains fieldType "."
  then match strings.Split fieldType "." !! 0%nat with
       | Some pkg =>
           match importsMap !! pkg with
           | Some imp => mret (<[pkg := setUsed imp]> importsMap)
           | None => mret importsMap
           end
       | None => Panic "index out of range [0] with length 0"
       end
  else mret importsMap.

(** The body of the loop over the fields of one struct. *)
Definition fieldStep (targets : list string) (s : ast.TypeSpec) (field : ast.Field)
    (st : gmap string usedImport * list setter)
    : outcome (gmap string usedImport * list setter) :=
  let '(importsMap, setters) := st in
  match ast.Names field with
  | [] => mret st
  | fieldName :: _ =>
      if negb (containsTargetField fieldName targets) then mret st
      else
        fieldType ← getFiledTypeString (ast.Typ field);
        importsMap ← markImport fieldType importsMap;
        mret (importsMap,
              setters ++ [{| StructName := ast.SpecName s;
                             FieldName := fieldName;
                             FieldType := fieldType |}])
  end.

(** The body of the loop over [t.structs]. *)
Definition structStep (targets : list string) (s : ast.TypeSpec)
    (st : gmap string usedImport * list setter)
    : outcome (gmap string usedImport * list setter) :=
  match ast.SpecType s with
  | ast.StructType fields => forRange fields (fieldStep targets s) st
  | _ => mret st
  end.

(** Lines 135-168. *)
Definition synthesize (t : targetStructs) (targets : list string)
    : outcome (gmap string usedImport * list setter) :=
  forRange (structs t) (structStep targets) (newImportsMap (imports t), []).

Section Generator.

(** [parser.ParseFile] on the file of that name: a tree or an error. *)
Variable parser_ParseFile : string -> FS -> ast.File + string.

(** [format.Source]: the canonical text or an error. *)
Variable format_Source : string -> string + string.

(** The order in which [range] visits the entries of a map; Go leaves it
    open and varies it from one loop to the next. *)
Variable mapRange : list (string * usedImport) -> list (string * usedImport).

(** The error, if any, that [os.WriteFile] meets at a path. *)
Variable writeError : string -> error.

(** [os.WriteFile]: on success the file holds the data and nothing else.
    What a failed write leaves at its path (the file as it was, an empty
    one or a part of the data) is not modelled: the failing branch keeps
    the file system, and no statement below is about the path of a failed
    write. *)
Definition os_WriteFile (name data : string) (fs : FS) : error * FS :=
  match writeError name with
  | Some err => (Some err, fs)
  | None => (None, <[name := data]> fs)
  end.

Definition searchTargetStructs (filename : string) (fs : FS)
    : outcome (targetStructs + string) :=
  match parser_ParseFile filename fs with
  | inr err => mret (inr err)
  | inl node =>
      captured ← ast.Inspect node (inspectNode node) ([], []);
      mret (inl {| structs := captured.1;
                   packageName := ast.Name node;
                   imports := captured.2;
                   path := filepath.Dir filename;
                   filename := filepath.Base filename |})
  end.

(** Lines 172-176: the paths of the entries marked used, in range order. *)
Definition usedImports (importsMap : gmap string usedImport) : list string :=
  map (fun kv => pkg kv.2)
      (filter (fun kv => used kv.2 = true) (mapRange (map_to_list importsMap))).

Definition outputPath (t : targetStructs) : string :=
  filepath.Join [path t; strings.TrimSuffix (filename t) ".go" +:+ "_setters.go"].

(** What is handed to the template. *)
Definition templateDataOf (t : targetStructs)
    (st : gmap string usedImport * list setter) : templateData :=
  {| PackageName := packageName t;
     Imports := usedImports st.1;
     Setters := st.2 |}.

(** The constant template always parses and its execution cannot fail,
    so the two error returns after them are never taken. *)
Definition generateTargetSetter (t : targetStructs) (targets : list string)
    (fs : FS) : outcome (error * FS) :=
  st ← synthesize t targets;
  if (length st.2 =? 0)%nat then mret (None, fs)
  else
    let buf := setterTemplate (templateDataOf t st) in
    match format_Source buf with
    | inr err => mret (Some err, fs)
    | inl formatted => mret (os_WriteFile (outputPath t) formatted fs)
    end.

(** The body of the loop of [main]; errors go to the log. *)
Definition processFile (targets : list string) (file : string)
    (st : FS * list string) : outcome (FS * list string) :=
  let '(fs, log) := st in
  found ← searchTargetStructs file fs;
  match found with
  | inr err => mret (fs, log ++ [err])
  | inl targetStructs =>
      res ← generateTargetSetter targetStructs targets fs;
      match res.1 with
      | Some err => mret (res.2, log ++ [err])
      | None => mret (res.2, log)
      end
  end.

(** [main] from the list of files on: the working directory and its
    listing are taken as found. *)
Definition main (files : list string) (fs : FS) : outcome (FS * list string) :=
  st ← forRange files (processFile targetFields) (fs, []);
  mret (st.1, st.2 ++ ["Successfully generated"]).

End Generator.

(** ** Notions the statements below are phrased in *)

(** The Type Printer as the specification words it, rule by rule; the
    other kinds, for which the specification has a failure, are given the
    empty text. *)
Fixpoint printer (T : ast.Expr) : string :=
  match T with
  | ast.Ident name => name
  | ast.StarExpr T => "*" +:+ printer T
  | ast.SelectorExpr package member => printer package +:+ "." +:+ member
  | ast.ArrayType _ T => "[]" +:+ printer T
  | ast.MapType K V => "map[" +:+ printer K +:+ "]" +:+ printer V
  | ast.InterfaceType _ => "interface{}"
  | ast.ChanType _ T => "chann" +:+ " " +:+ printer T
  | ast.Ellipsis T => "..." +:+ printer T
  | _ => ""
  end.

(** The node kinds the printer has a case for. *)
Definition supportedKind (expr : ast.Expr) : bool :=
  match expr with
  | ast.Ident _ | ast.StarExpr _ | ast.SelectorExpr _ _ | ast.ArrayType _ _
  | ast.MapType _ _ | ast.InterfaceType _ | ast.ChanType _ _ | ast.Ellipsis _ => true
  | _ => false
  end.

(** The nodes of a type expression the printer comes to, in the order it
    comes to them, had it gone on past a failure: the length of an array
    type and the methods of an interface type are never looked at. *)
Fixpoint printedNodes (expr : ast.Expr) : list ast.Expr :=
  expr ::
  match expr with
  | ast.StarExpr x | ast.SelectorExpr x _ => printedNodes x
  | ast.ArrayType _ elt | ast.Ellipsis elt => printedNodes elt
  | ast.MapType key value => printedNodes key ++ printedNodes value
  | ast.ChanType _ value => printedNodes value
  | _ => []
  end.

(** A type expression built from the supported kinds only. *)
Definition supported (expr : ast.Expr) : bool :=
  forallb supportedKind (printedNodes expr).

(** Where the printer panics and what it says. *)
Definition panicsNaming (expr : ast.Expr) : Prop :=
  exists n, n ∈ printedNodes expr /\ supportedKind n = false /\
            getFiledTypeString expr = Panic ("unsupported type: " +:+ goTypeName n).

(** The field declarations synthesis acts on: one with a first name that is
    a target, given as that name and the declared type. *)
Definition targetField (targets : list string) (field : ast.Field)
    : option (string * ast.Expr) :=
  match ast.Names field with
  | name :: _ =>
      if containsTargetField name targets then Some (name, ast.Typ field) else None
  | [] => None
  end.

Definition structFields (s : ast.TypeSpec) : list ast.Field :=
  match ast.SpecType s with
  | ast.StructType fields => fields
  | _ => []
  end.

Definition targetDecls (targets : list string) (s : ast.TypeSpec)
    : list (string * ast.Expr) :=
  omap (targetField targets) (structFields s).

(** The AccessorDescriptor of one such declaration. *)
Definition descriptor (s : ast.TypeSpec) (d : string * ast.Expr) : setter :=
  {| StructName := ast.SpecName s; FieldName := d.1; FieldType := printer d.2 |}.

(** The descriptors of a unit, struct by struct and field by field. *)
Definition descriptors (targets : list string) (structs : list ast.TypeSpec)
    : list setter :=
  flat_map (fun s => map (descriptor s) (targetDecls targets s)) structs.

(** Every type the synthesis has to print is of supported kinds throughout. *)
Definition printable (targets : list string) (structs : list ast.TypeSpec) : bool :=
  forallb (fun s => forallb (fun d => supported d.2) (targetDecls targets s)) structs.

(** The text before the first [.] of a printed type that has one. *)
Definition qualifier (fieldType : string) : option string :=
  if strings.Contains fieldType "." then strings.Split fieldType "." !! 0%nat else None.

(** The imports map after one printed type has been looked at. *)
Definition marked (importsMap : gmap string usedImport) (fieldType : string)
    : gmap string usedImport :=
  match qualifier fieldType with
  | Some pkg =>
      match importsMap !! pkg with
      | Some imp => <[pkg := setUsed imp]> importsMap
      | None => importsMap
      end
  | None => importsMap
  end.

(** The imports map once all the descriptors have been made. *)
Definition markedBy (importsMap : gmap string usedImport) (setters : list setter)
    : gmap string usedImport :=
  foldl marked importsMap (map FieldType setters).

(** The import the map holds under a short name: the last one of the unit
    with that base. *)
Definition importNamed (imports : list string) (short : string) : option string :=
  last (filter (fun imp => filepath.Base imp = short) imports).

(** A declaration group the scanner acts on: a type declaration with a doc
    comment. *)
Definition eligible (genDecl : ast.GenDecl) : bool :=
  match ast.Tok genDecl, ast.Doc genDecl with
  | token.TYPE, Some _ => true
  | _, _ => false
  end.

Definition eligibleNode (n : ast.Node) : bool :=
  match n with
  | ast.GenDeclNode genDecl => eligible genDecl
  | _ => false
  end.

(** The last such group the walk meets. *)
Fixpoint lastEligible (ns : list ast.Node) : option ast.GenDecl :=
  match ns with
  | [] => None
  | n :: rest =>
      match lastEligible rest with
      | Some genDecl => Some genDecl
      | None =>
          match n with
          | ast.GenDeclNode genDecl => if eligible genDecl then Some genDecl else None
          | _ => None
          end
      end
  end.

(** The lines of a group's doc comment that begin with the marker. *)
Definition markerLines (genDecl : ast.GenDecl) : list ast.Comment :=
  match ast.Doc genDecl with
  | Some doc =>
      filter (fun comment =>
                strings.HasPrefix (ast.Text comment) "//gen:setters" = true)
             (ast.List doc)
  | None => []
  end.

(** A marker-bearing group. *)
Definition hasMarker (genDecl : ast.GenDecl) : bool :=
  eligible genDecl && bool_decide (markerLines genDecl ≠ []).

(** What one group leaves in [structs]: its struct specs, once for each
    marker line. *)
Definition groupStructs (genDecl : ast.GenDecl) : list ast.TypeSpec :=
  flat_map (fun _ => structSpecs (ast.Specs genDecl)) (markerLines genDecl).

(** The import paths of a unit, quotes removed. *)
Definition unquoted (importSpec : ast.ImportSpec) : string :=
  String.substring 1 (String.length (ast.PathValue importSpec) - 2)
    (ast.PathValue importSpec).

Definition importPaths (node : ast.File) : list string :=
  map unquoted (ast.Imports node).

(** Every import path literal has its two quotes, as the parser leaves it. *)
Definition wellQuoted (node : ast.File) : bool :=
  forallb (fun importSpec => (2 <=? String.length (ast.PathValue importSpec))%nat)
          (ast.Imports node).

(** What C3 says when a field is each name a struct declares: every such
    name that is a target has its descriptor. *)
Definition everyTargetNameDescribed (t : targetStructs) (targets : list string) : Prop :=
  forall s field name,
    s ∈ structs t -> field ∈ structFields s -> name ∈ ast.Names field ->
    containsTargetField name targets = true ->
    exists importsMap setters,
      synthesize t targets = Return (importsMap, setters) /\
      exists d, d ∈ setters /\ StructName d = ast.SpecName s /\ FieldName d = name.

(** A field declaration cut down to its first name; an embedded field is
    dropped. *)
Definition firstNameOnly (field : ast.Field) : list ast.Field :=
  match ast.Names field with
  | [] => []
  | name :: _ => [ast.mkField [name] (ast.Typ field)]
  end.

Definition firstNamesOnly (s : ast.TypeSpec) : ast.TypeSpec :=
  {| ast.SpecName := ast.SpecName s;
     ast.SpecType := match ast.SpecType s with
                     | ast.StructType fields => ast.StructType (flat_map firstNameOnly fields)
                     | other => other
                     end |}.

Definition withStructs (t : targetStructs) (ss : list ast.TypeSpec) : targetStructs :=
  {| path := path t; filename := filename t; packageName := packageName t;
     imports := imports t; structs := ss |}.

(** What a unit hands to the template when every target field prints. *)
Definition unitData
    (mapRange : list (string * usedImport) -> list (string * usedImport))
    (t : targetStructs) (targets : list string) : templateData :=
  {| PackageName := packageName t;
     Imports := usedImports mapRange
                  (markedBy (newImportsMap (imports t))
                            (descriptors targets (structs t)));
     Setters := descriptors targets (structs t) |}.

(** ** Sample units *)

Definition quoted (p : string) : string := dquote +:+ p +:+ dquote.

Definition importOf (p : string) : ast.ImportSpec :=
  {| ast.Alias := None; ast.PathValue := quoted p |}.

Definition docLines (lines : list string) : option ast.CommentGroup :=
  Some {| ast.List := map (fun text => {| ast.Text := text |}) lines |}.

Definition typeGroup (doc : option ast.CommentGroup) (specs : list ast.TypeSpec)
    : ast.GenDecl :=
  {| ast.Doc := doc; ast.Tok := token.TYPE; ast.Specs := map ast.ATypeSpec specs |}.

Definition importGroup (paths : list string) : ast.GenDecl :=
  {| ast.Doc := None; ast.Tok := token.IMPORT;
     ast.Specs := map (fun p => ast.AnImportSpec (importOf p)) paths |}.

Definition structOf (name : string) (fields : list ast.Field) : ast.TypeSpec :=
  {| ast.SpecName := name; ast.SpecType := ast.StructType fields |}.

Definition timeTime : ast.Expr := ast.SelectorExpr (ast.Ident "time") "Time".

(** [map[string][]chan *time.Time]. *)
Definition nestedType : ast.Expr :=
  ast.MapType (ast.Ident "string")
    (ast.ArrayType ast.NilExpr (ast.ChanType ast.SEND_RECV (ast.StarExpr timeTime))).

(** A parser that finds the given tree in every file. *)
Definition parsed (node : ast.File) : string -> FS -> ast.File + string :=
  fun _ _ => inl node.

(** A formatter that leaves the text as it is, a [range] that follows the
    listing of the map, and a disk that takes every write. *)
Definition formatAsIs : string -> string + string := inl.
Definition rangeAsListed : list (string * usedImport) -> list (string * usedImport) :=
  fun entries => entries.
Definition rangeReversed : list (string * usedImport) -> list (string * usedImport) :=
  fun entries => rev entries.
Definition writable : string -> error := fun _ => None.

(** [example/example_v1.go]. *)
Definition exampleStruct : ast.TypeSpec :=
  structOf "example"
    [ast.mkField ["Name"] (ast.Ident "string");
     ast.mkField ["CreatedAt"] timeTime;
     ast.mkField ["UpdatedAt"] timeTime].

Definition exampleFile : ast.File :=
  {| ast.Name := "example";
     ast.Decls := [ast.AGenDecl (importGroup ["log"; "time"]) [];
                   ast.AFuncDecl "add" [];
                   ast.AGenDecl (typeGroup (docLines ["//gen:setters"]) [exampleStruct]) []];
     ast.Imports := [importOf "log"; importOf "time"] |}.

Definition exampleUnit : targetStructs :=
  {| path := "/w/example"; filename := "example_v1.go"; packageName := "example";
     imports := ["log"; "time"]; structs := [exampleStruct] |}.

(** Two marker-bearing groups, [A] then [B]. *)
Definition structA : ast.TypeSpec := structOf "A" [ast.mkField ["CreatedAt"] timeTime].
Definition structB : ast.TypeSpec := structOf "B" [ast.mkField ["UpdatedAt"] timeTime].

Definition twoGroups : ast.File :=
  {| ast.Name := "p";
     ast.Decls := [ast.AGenDecl (importGroup ["time"]) [];
                   ast.AGenDecl (typeGroup (docLines ["//gen:setters"]) [structA]) [];
                   ast.AGenDecl (typeGroup (docLines ["//gen:setters"]) [structB]) []];
     ast.Imports := [importOf "time"] |}.

(** [type T struct { CreatedAt *time.Time }] in a unit importing [time]. *)
Definition pointerTime : targetStructs :=
  {| path := "/w"; filename := "t.go"; packageName := "p"; imports := ["time"];
     structs := [structOf "T" [ast.mkField ["CreatedAt"] (ast.StarExpr timeTime)]] |}.

(** [type T struct { ID, CreatedAt int64 }]. *)
Definition sharedNames : targetStructs :=
  {| path := "/w"; filename := "t.go"; packageName := "p"; imports := [];
     structs := [structOf "T" [ast.mkField ["ID"; "CreatedAt"] (ast.Ident "int64")]] |}.

(** A unit with imports and a function, and no type declaration. *)
Definition onlyFuncs : ast.File :=
  {| ast.Name := "p";
     ast.Decls := [ast.AGenDecl (importGroup ["log"; "time"]) []; ast.AFuncDecl "add" []];
     ast.Imports := [importOf "log"; importOf "time"] |}.

(** A marked struct none of whose fields is a target. *)
Definition noTargets : targetStructs :=
  {| path := "/w"; filename := "t.go"; packageName := "p"; imports := ["time"];
     structs := [structOf "T" [ast.mkField ["Name"] (ast.Ident "string");
                               ast.mkField ["DeletedAt"] timeTime]] |}.

(** [type T struct { CreatedAt *func() }]. *)
Definition funcField : ast.Field :=
  ast.mkField ["CreatedAt"] (ast.StarExpr (ast.FuncType [] [])).

Definition funcFieldFile : ast.File :=
  {| ast.Name := "p";
     ast.Decls := [ast.AGenDecl (typeGroup (docLines ["//gen:setters"])
                                   [structOf "T" [funcField]]) []];
     ast.Imports := [] |}.

Definition funcFieldUnit : targetStructs :=
  {| path := "/w"; filename := "t.go"; packageName := "p"; imports := [];
     structs := [structOf "T" [funcField]] |}.

(** Two target fields whose types come from two packages. *)
Definition twoImports : targetStructs :=
  {| path := "/w"; filename := "row.go"; packageName := "p";
     imports := ["time"; "github.com/google/uuid"];
     structs := [structOf "Row" [ast.mkField ["CreatedAt"] timeTime;
                                 ast.mkField ["UpdatedAt"]
                                   (ast.SelectorExpr (ast.Ident "uuid") "Time")]] |}.

Definition rowSetters : list setter :=
  [{| StructName := "Row"; FieldName := "CreatedAt"; FieldType := "time.Time" |};
   {| StructName := "Row"; FieldName := "UpdatedAt"; FieldType := "uuid.Time" |}].

(** A string the HTML escaper leaves alone. *)
Fixpoint htmlSafe (s : string) : bool :=
  match s with
  | EmptyString => true
  | String c rest =>
      match htmlReplacement c with
      | None => htmlSafe rest
      | Some _ => false
      end
  end.

Definition setterSafe (s : setter) : bool :=
  htmlSafe (StructName s) && htmlSafe (FieldName s) && htmlSafe (FieldType s).

Definition dataSafe (data : templateData) : bool :=
  htmlSafe (PackageName data) && forallb htmlSafe (Imports data)
  && forallb setterSafe (Setters data).

(** The generated file as its contract words it: a package clause, an
    import block with one quoted path per entry, and per descriptor a
    method [func (s *Type) SetField(v FieldType) { s.Field = v }]. *)
Definition packageClause (name : string) : string := "package " +:+ name.

Definition importEntry (importPath : string) : string :=
  tab +:+ dquote +:+ importPath +:+ dquote.

Definition importBlock (importPaths : list string) : string :=
  "import (" +:+ nl
  +:+ String.concat "" (map (fun p => nl +:+ importEntry p +:+ nl) importPaths)
  +:+ nl +:+ ")".

Definition setterShape (d : setter) : string :=
  "func (s *" +:+ StructName d +:+ ") Set" +:+ FieldName d
  +:+ "(v " +:+ FieldType d +:+ ") {" +:+ nl
  +:+ tab +:+ "s." +:+ FieldName d +:+ " = v" +:+ nl
  +:+ "}".

Definition generatedSource (data : templateData) : string :=
  nl +:+ packageClause (PackageName data) +:+ nl
  +:+ nl
  +:+ importBlock (Imports data) +:+ nl
  +:+ nl
  +:+ String.concat "" (map (fun d => nl +:+ setterShape d +:+ nl) (Setters data))
  +:+ nl.

(** A path element that [Clean] keeps as it is. *)
Definition plainElement (e : string) : bool :=
  negb (strings.Contains e "/") && negb (String.eqb e "")
  && negb (String.eqb e ".") && negb (String.eqb e "..").

(** *** The listing of the files ([os], [filepath.Walk], [listGoFiles]) *)

Module os.

(** What [os.Lstat] and the reading of a directory find at a path: a file
    that is not a directory; a directory, with the error of reading it, if
    any, and its entries in the order [Walk] takes them, sorted by name;
    or nothing but the error of [Lstat]. *)
#[local] Unset Elimination Schemes.
Inductive Entry :=
| NotDir (name : string)
| Dir (name : string) (readErr : error) (entries : list Entry)
| LstatError (name : string) (err : string).
#[local] Set Elimination Schemes.

Definition Name (info : Entry) : string :=
  match info with
  | NotDir name | Dir name _ _ | LstatError name _ => name
  end.

Definition IsDir (info : Entry) : bool :=
  match info with
  | Dir _ _ _ => true
  | _ => false
  end.

End os.

(** [filepath.Walk(root, walkFn)] for a callback that never answers
    [SkipDir] or [SkipAll]; [acc] is what the callback has captured.  The
    callback is run on the directory before its entries, with the error of
    reading it; an error it returns ends the walk. *)
Fixpoint filepath_Walk {S : Type} (root : string) (info : os.Entry)
    (walkFn : string -> os.Entry -> error -> S -> S * error) (acc : S) : S * error :=
  match info with
  | os.NotDir _ => walkFn root info None acc
  | os.LstatError _ err => walkFn root info (Some err) acc
  | os.Dir _ readErr entries =>
      let '(acc, err1) := walkFn root info readErr acc in
      match readErr, err1 with
      | None, None =>
          (fix range (names : list os.Entry) (acc : S) : S * error :=
             match names with
             | [] => (acc, None)
             | entry :: rest =>
                 let filename := filepath.Join [root; os.Name entry] in
                 let '(acc, err) := filepath_Walk filename entry walkFn acc in
                 match err with
                 | Some e => (acc, Some e)
                 | None => range rest acc
                 end
             end) entries acc
      | _, _ => (acc, err1)
      end
  end.

(** The callback of [listGoFiles]; [files] is the variable it captures. *)
Definition collectGoFile (path : string) (info : os.Entry) (err : error)
    (files : list string) : list string * error :=
  match err with
  | Some e => (files, Some e)
  | None =>
      if negb (os.IsDir info) && strings.HasSuffix (os.Name info) ".go"
      then (files ++ [path], None)
      else (files, None)
  end.

Definition listGoFiles (root : string) (tree : os.Entry) : list string * error :=
  filepath_Walk root tree collectGoFile [].

Section Run.

Variable parser_ParseFile : string -> FS -> ast.File + string.
Variable format_Source : string -> string + string.
Variable mapRange : list (string * usedImport) -> list (string * usedImport).
Variable writeError : string -> error.

(** [main] from its first line: [getwd] is what [os.Getwd] answers, [tree]
    what lies at that directory. *)
Definition mainFrom (getwd : string + string) (tree : os.Entry) (fs : FS)
    : outcome (FS * list string) :=
  match getwd with
  | inr err => Panic err
  | inl dir =>
      match listGoFiles dir tree with
      | (_, Some err) => Panic err
      | (files, None) =>
          main parser_ParseFile format_Source mapRange writeError files fs
      end
  end.

End Run.

(** The files below a path that are not directories, each with its path
    and its name, in the order of the walk. *)
Fixpoint plainFiles (path : string) (info : os.Entry) : list (string * string) :=
  match info with
  | os.NotDir name => [(path, name)]
  | os.LstatError _ _ => []
  | os.Dir _ _ entries =>
      flat_map (fun entry => plainFiles (filepath.Join [path; os.Name entry]) entry)
               entries
  end.

(** The paths among them whose name ends in [.go]. *)
Definition goFiles (path : string) (info : os.Entry) : list string :=
  map fst (filter (fun file => strings.HasSuffix file.2 ".go" = true)
                  (plainFiles path info)).

(** Nothing in the tree fails to be read. *)
Fixpoint readable (info : os.Entry) : bool :=
  match info with
  | os.NotDir _ => true
  | os.LstatError _ _ => false
  | os.Dir _ readErr entries =>
      match readErr with
      | Some _ => false
      | None => forallb readable entries
      end
  end.

(** The loop of [Walk] over the entries of a directory. *)
Fixpoint walkEntries {S : Type} (root : string)
    (walkFn : string -> os.Entry -> error -> S -> S * error)
    (names : list os.Entry) (acc : S) : S * error :=
  match names with
  | [] => (acc, None)
  | entry :: rest =>
      let '(acc, err) :=
        filepath_Walk (filepath.Join [root; os.Name entry]) entry walkFn acc in
      match err with
      | Some e => (acc, Some e)
      | None => walkEntries root walkFn rest acc
      end
  end.

(** The error the walk comes to first: that of [Lstat] on an entry, or that
    of reading a directory. *)
Fixpoint firstError (info : os.Entry) : error :=
  match info with
  | os.NotDir _ => None
  | os.LstatError _ err => Some err
  | os.Dir _ readErr entries =>
      match readErr with
      | Some err => Some err
      | None =>
          (fix first (names : list os.Entry) : error :=
             match names with
             | [] => None
             | entry :: rest =>
                 match firstError entry with
                 | Some err => Some err
                 | None => first rest
                 end
             end) entries
      end
  end.

(** The same among the entries of a directory. *)
Fixpoint firstErrorIn (names : list os.Entry) : error :=
  match names with
  | [] => None
  | entry :: rest =>
      match firstError entry with
      | Some err => Some err
      | None => firstErrorIn rest
      end
  end.

(** The struct type spec in a spec of a declaration group, if it is one. *)
Definition structSpecOf (spec : ast.Spec) : option ast.TypeSpec :=
  match spec with
  | ast.ATypeSpec typeSpec =>
      match ast.SpecType typeSpec with
      | ast.StructType _ => Some typeSpec
      | _ => None
      end
  | _ => None
  end.

(** No documented type declaration of the unit has a marker line. *)
Definition unmarked (node : ast.File) : bool :=
  forallb (fun n => match n with
                    | ast.GenDeclNode genDecl => negb (hasMarker genDecl)
                    | _ => true
                    end)
          (ast.nodes node).

(** Every identifier the printer prints is free of the bytes
    [html/template] escapes. *)
Fixpoint identsSafe (expr : ast.Expr) : bool :=
  match expr with
  | ast.Ident name => htmlSafe name
  | ast.StarExpr x => identsSafe x
  | ast.SelectorExpr x sel => identsSafe x && htmlSafe sel
  | ast.ArrayType _ elt | ast.Ellipsis elt => identsSafe elt
  | ast.MapType key value => identsSafe key && identsSafe value
  | ast.ChanType _ value => identsSafe value
  | _ => true
  end.

(** The companion of a listed file, as [searchTargetStructs] and
    [generateTargetSetter] together name it. *)
Definition companion (file : string) : string :=
  filepath.Join [filepath.Dir file;
                 strings.TrimSuffix (filepath.Base file) ".go" +:+ "_setters.go"].

(** A working directory with a read-me, a package, a directory whose name
    ends in [.go] and a main file. *)
Definition sampleTree : os.Entry :=
  os.Dir "w" None
    [os.NotDir "README.md";
     os.Dir "example" None [os.NotDir "example_v1.go"];
     os.NotDir "main.go";
     os.Dir "old.go" None [os.NotDir "notes.txt"; os.NotDir "x.go"]].

(** The same with a directory that cannot be read after the first file. *)
Definition brokenTree : os.Entry :=
  os.Dir "w" None
    [os.NotDir "a.go";
     os.Dir "locked" (Some "open /w/locked: permission denied") [];
     os.NotDir "z.go"].

(** A unit whose only documented type declaration has no marker. *)
Definition unmarkedFile : ast.File :=
  {| ast.Name := "p";
     ast.Decls := [ast.AGenDecl (importGroup ["time"]) [];
                   ast.AGenDecl (typeGroup (docLines ["// A is a row."]) [structA]) []];
     ast.Imports := [importOf "time"] |}.

(** A marked group followed by a documented one without the marker. *)
Definition markedThenPlain : ast.File :=
  {| ast.Name := "p";
     ast.Decls := [ast.AGenDecl (typeGroup (docLines ["//gen:setters"]) [structA]) [];
                   ast.AGenDecl (typeGroup (docLines ["// B is a row."]) [structB]) []];
     ast.Imports := [importOf "time"] |}.

(** A parser that fails on every file, naming it. *)
Definition unparsable : string -> FS -> ast.File + string :=
  fun file _ => inr (file +:+ ":1:1: expected 'package', found 'EOF'").

(** A formatter that rejects everything, and a disk that refuses every
    write. *)
Definition formatFails : string -> string + string :=
  fun _ => inr "1:1: expected declaration".
Definition readOnly : string -> error :=
  fun name => Some ("open " +:+ name +:+ ": read-only file system").

(** The example package on disk, before and after a run. *)
Definition exampleDisk : FS :=
  {[ "/w/example/example_v1.go" := "package example" ]}.

Definition exampleDiskAfter : FS :=
  <[ "/w/example/example_v1_setters.go" :=
       generatedSource (unitData rangeAsListed exampleUnit targetFields) ]> exampleDisk.

(** Induction on a tree, with the hypothesis on every entry of a
    directory. *)
Section EntryInduction.

Variable P : os.Entry -> Prop.
Hypothesis HNotDir : forall name, P (os.NotDir name).
Hypothesis HLstatError : forall name err, P (os.LstatError name err).
Hypothesis HDir : forall name readErr entries,
  Forall P entries -> P (os.Dir name readErr entries).

Fixpoint Entry_ind (info : os.Entry) : P info :=
  match info with
  | os.NotDir name => HNotDir name
  | os.LstatError name err => HLstatError name err
  | os.Dir name readErr entries =>
      HDir name readErr entries
        ((fix all (es : list os.Entry) : Forall P es :=
            match es with
            | [] => @Stdlib.Lists.List.Forall_nil _ P
            | e :: es' => @Stdlib.Lists.List.Forall_cons _ P e es' (Entry_ind e) (all es')
            end) entries)
  end.

End EntryInduction.

(** * Properties *)

Example HasPrefix_marker : strings.HasPrefix "//gen:setters extra" "//gen:setters" = true.
Proof. reflexivity. Qed.
Example Split_dot : strings.Split "time.Time" "." = ["time"; "Time"].
Proof. reflexivity. Qed.
Example Split_nodot : strings.Split "string" "." = ["string"].
Proof. reflexivity. Qed.
Example TrimSuffix_go : strings.TrimSuffix "example_v1.go" ".go" = "example_v1".
Proof. reflexivity. Qed.
Example Base_import : filepath.Base "github.com/google/uuid" = "uuid".
Proof. reflexivity. Qed.
Example Base_slashes : filepath.Base "///" = "/".
Proof. reflexivity. Qed.
Example Base_file : filepath.Base "/w/example/example_v1.go" = "example_v1.go".
Proof. reflexivity. Qed.
Example Dir_file : filepath.Dir "/w/example/example_v1.go" = "/w/example".
Proof. reflexivity. Qed.
Example Dir_plain : filepath.Dir "a.go" = ".".
Proof. reflexivity. Qed.
Example Clean_dots : filepath.Clean "/a/./b/../../c//d/" = "/c/d".
Proof. reflexivity. Qed.
Example Clean_rel : filepath.Clean "../../a/.." = "../..".
Proof. reflexivity. Qed.
Example Join_file : filepath.Join ["/w/example"; "example_v1_setters.go"]
  = "/w/example/example_v1_setters.go".
Proof. reflexivity. Qed.
Example Join_dot : filepath.Join ["."; "a_setters.go"] = "a_setters.go".
Proof. reflexivity. Qed.
Example print_qualified :
  getFiledTypeString (ast.SelectorExpr (ast.Ident "time") "Time") = Return "time.Time".
Proof. reflexivity. Qed.
Example print_map :
  getFiledTypeString (ast.MapType (ast.Ident "string") (ast.ArrayType ast.NilExpr (ast.StarExpr (ast.Ident "T"))))
  = Return "map[string][]*T".
Proof. reflexivity. Qed.
Example print_func :
  getFiledTypeString (ast.StarExpr (ast.FuncType [] [])) = Panic "unsupported type: *ast.FuncType".
Proof. reflexivity. Qed.

(** ** The Type Printer *)

Lemma supported_cons (expr : ast.Expr) :
  supported expr = supportedKind expr && forallb supportedKind (tl (printedNodes expr)).
Proof. by destruct expr. Qed.

(** The printer fails at a node of a kind it has no case for, naming it. *)
Lemma printer_panics_at (expr : ast.Expr) :
  supportedKind expr = false ->
  getFiledTypeString expr = Panic ("unsupported type: " +:+ goTypeName expr).
Proof. by destruct expr. Qed.

(** On an expression of supported kinds throughout it returns the text of
    the specification's rules. *)
Lemma printer_returns (expr : ast.Expr) :
  supported expr = true -> getFiledTypeString expr = Return (printer expr).
Proof.
  induction expr as
    [ | name | x IHx | x IHx sel | len _ elt IHelt | key IHkey value IHvalue
      | methods | dir value IHvalue | elt IHelt | | | | | | | ];
    rewrite supported_cons; cbn [supportedKind andb printedNodes tl];
    try discriminate; try reflexivity; intros Hs; simpl.
  - by rewrite IHx.
  - by rewrite IHx.
  - by rewrite IHelt.
  - rewrite forallb_app in Hs. apply andb_prop in Hs as [Hk Hv].
    by rewrite IHkey, IHvalue.
  - by rewrite IHvalue.
  - by rewrite IHelt.
Qed.

Lemma panicsNaming_here (expr : ast.Expr) :
  supportedKind expr = false -> panicsNaming expr.
Proof.
  intros He. exists expr. split_and!; [|done|by apply printer_panics_at].
  destruct expr; apply list_elem_of_here.
Qed.

(** One enclosing node: the panic of the inner call unwinds through it. *)
Lemma panicsNaming_wrap (expr x : ast.Expr) (f : string -> string) :
  (forall n, n ∈ printedNodes x -> n ∈ printedNodes expr) ->
  getFiledTypeString expr = (sx ← getFiledTypeString x; mret (f sx)) ->
  panicsNaming x -> panicsNaming expr.
Proof.
  intros Hin He (n & Hn & Hk & Hp). exists n. split_and!; [by apply Hin|done|].
  by rewrite He, Hp.
Qed.

(** A node of an unsupported kind anywhere the printer comes to makes the
    whole call panic. *)
Lemma printer_panics_inside (expr : ast.Expr) :
  supported expr = false -> panicsNaming expr.
Proof.
  induction expr as
    [ | name | x IHx | x IHx sel | len _ elt IHelt | key IHkey value IHvalue
      | methods | dir value IHvalue | elt IHelt | | | | | | | ];
    try (intros _; by apply panicsNaming_here); try discriminate;
    rewrite supported_cons; cbn [supportedKind andb printedNodes tl]; intros Hs.
  - eapply (panicsNaming_wrap _ x (fun sx => "*" +:+ sx)); [|reflexivity|by apply IHx].
    intros n Hn. by apply list_elem_of_further.
  - eapply (panicsNaming_wrap _ x (fun sx => sx +:+ "." +:+ sel)); [|reflexivity|by apply IHx].
    intros n Hn. by apply list_elem_of_further.
  - eapply (panicsNaming_wrap _ elt (fun se => "[]" +:+ se)); [|reflexivity|by apply IHelt].
    intros n Hn. by apply list_elem_of_further.
  - rewrite forallb_app in Hs.
    destruct (forallb supportedKind (printedNodes key)) eqn:Hk.
    + destruct (IHvalue Hs) as (n & Hn & Hkind & Hp). exists n. split_and!; [|done|].
      * apply list_elem_of_further, elem_of_app. by right.
      * simpl. rewrite (printer_returns key Hk). simpl. by rewrite Hp.
    + destruct (IHkey Hk) as (n & Hn & Hkind & Hp). exists n. split_and!; [|done|].
      * apply list_elem_of_further, elem_of_app. by left.
      * simpl. by rewrite Hp.
  - eapply (panicsNaming_wrap _ value (fun sv => "chann " +:+ sv)); [|reflexivity|by apply IHvalue].
    intros n Hn. by apply list_elem_of_further.
  - eapply (panicsNaming_wrap _ elt (fun se => "..." +:+ se)); [|reflexivity|by apply IHelt].
    intros n Hn. by apply list_elem_of_further.
Qed.

(** ** Loops and panics *)

Lemma forRange_app {A S : Type} (xs ys : list A) (body : A -> S -> outcome S) (acc : S) :
  forRange (xs ++ ys) body acc = (acc' ← forRange xs body acc; forRange ys body acc').
Proof.
  revert acc. induction xs as [|x xs IH]; intros acc; [done|].
  simpl. destruct (body x acc) as [acc'|msg]; [apply IH|done].
Qed.

(** A loop whose body never panics is a fold. *)
Lemma forRange_pure {A S : Type} (xs : list A) (body : A -> S -> outcome S)
    (f : S -> A -> S) (acc : S) :
  (forall x a, body x a = Return (f a x)) ->
  forRange xs body acc = Return (foldl f acc xs).
Proof.
  intros Hbody. revert acc. induction xs as [|x xs IH]; intros acc; [done|].
  simpl. rewrite Hbody. apply IH.
Qed.

(** ** Synthesis *)

Lemma split_from_nonempty (sep : string) (skip : nat) (cur s : string) :
  exists h t, strings.split_from sep skip cur s = h :: t.
Proof.
  revert skip cur. induction s as [|c s IH]; intros skip cur.
  - by exists cur, [].
  - cbn [strings.split_from]. destruct skip as [|k]; [|by apply IH].
    destruct (strings.HasPrefix (String c s) sep); [|by apply IH].
    by eexists _, _.
Qed.

(** Indexing the result of [Split] at 0 never goes out of range. *)
Lemma markImport_returns (fieldType : string) (importsMap : gmap string usedImport) :
  markImport fieldType importsMap = Return (marked importsMap fieldType).
Proof.
  unfold markImport, marked, qualifier.
  destruct (strings.Contains fieldType ".") eqn:Hc; [|done].
  destruct (split_from_nonempty "." 0 "" fieldType) as (h & tl & Hs).
  unfold strings.Split. rewrite Hs. simpl.
  by destruct (importsMap !! h).
Qed.

Lemma fieldStep_target (targets : list string) (s : ast.TypeSpec) (field : ast.Field)
    (importsMap : gmap string usedImport) (setters : list setter) :
  fieldStep targets s field (importsMap, setters) =
  match targetField targets field with
  | None => Return (importsMap, setters)
  | Some d =>
      fieldType ← getFiledTypeString d.2;
      mret (marked importsMap fieldType,
            setters ++ [{| StructName := ast.SpecName s; FieldName := d.1;
                           FieldType := fieldType |}])
  end.
Proof.
  unfold fieldStep, targetField. destruct (ast.Names field) as [|name rest]; [done|].
  destruct (containsTargetField name targets); simpl; [|done].
  destruct (getFiledTypeString (ast.Typ field)) as [fieldType|msg]; simpl; [|done].
  by rewrite markImport_returns.
Qed.

Lemma markedBy_app (importsMap : gmap string usedImport) (ds1 ds2 : list setter) :
  markedBy importsMap (ds1 ++ ds2) = markedBy (markedBy importsMap ds1) ds2.
Proof. unfold markedBy. by rewrite map_app, foldl_app. Qed.

(** The loop over the fields of one struct, when every target field prints. *)
Lemma fields_loop_returns (targets : list string) (s : ast.TypeSpec)
    (fields : list ast.Field) (importsMap : gmap string usedImport)
    (setters : list setter) :
  forallb (fun d => supported d.2) (omap (targetField targets) fields) = true ->
  forRange fields (fieldStep targets s) (importsMap, setters) =
  Return (markedBy importsMap (map (descriptor s) (omap (targetField targets) fields)),
          setters ++ map (descriptor s) (omap (targetField targets) fields)).
Proof.
  revert importsMap setters.
  induction fields as [|field fields IH]; intros importsMap setters Hs.
  { simpl. by rewrite app_nil_r. }
  cbn [forRange]. rewrite fieldStep_target. cbn [omap list_omap] in *.
  destruct (targetField targets field) as [d|]; [|by apply IH].
  cbn [forallb] in Hs. apply andb_prop in Hs as [Hd Hrest].
  rewrite (printer_returns _ Hd). simpl. rewrite (IH _ _ Hrest).
  by rewrite <- app_assoc.
Qed.

(** The same loop when some target field does not print. *)
Lemma fields_loop_panics (targets : list string) (s : ast.TypeSpec)
    (fields : list ast.Field) (st : gmap string usedImport * list setter) :
  forallb (fun d => supported d.2) (omap (targetField targets) fields) = false ->
  exists d, d ∈ omap (targetField targets) fields /\ panicsNaming d.2 /\
    exists msg, getFiledTypeString d.2 = Panic msg /\
                forRange fields (fieldStep targets s) st = Panic msg.
Proof.
  revert st. induction fields as [|field fields IH]; intros [importsMap setters] Hs;
    [done|].
  cbn [forRange]. rewrite fieldStep_target. cbn [omap list_omap] in *.
  destruct (targetField targets field) as [d|].
  - cbn [forallb] in Hs. destruct (supported d.2) eqn:Hd.
    + rewrite (printer_returns _ Hd). simpl in Hs |- *.
      destruct (IH (marked importsMap (printer d.2),
                    setters ++ [{| StructName := ast.SpecName s; FieldName := d.1;
                                   FieldType := printer d.2 |}]) Hs)
        as (d' & Hin & Hp & msg & Hm & Hloop).
      exists d'. split_and!; [by apply list_elem_of_further|done|by eauto].
    + pose proof (printer_panics_inside _ Hd) as Hp.
      exists d. split_and!; [apply list_elem_of_here|done|].
      destruct Hp as (n & _ & _ & Hp). eexists. split; [exact Hp|]. by rewrite Hp.
  - destruct (IH (importsMap, setters) Hs) as (d' & Hin & Hp & Hloop).
    exists d'. by split_and!.
Qed.

Lemma structStep_fields (targets : list string) (s : ast.TypeSpec)
    (st : gmap string usedImport * list setter) :
  structStep targets s st = forRange (structFields s) (fieldStep targets s) st.
Proof. unfold structStep, structFields. by destruct (ast.SpecType s). Qed.

Lemma structs_loop_returns (targets : list string) (structs : list ast.TypeSpec)
    (importsMap : gmap string usedImport) (setters : list setter) :
  printable targets structs = true ->
  forRange structs (structStep targets) (importsMap, setters) =
  Return (markedBy importsMap (descriptors targets structs),
          setters ++ descriptors targets structs).
Proof.
  revert importsMap setters.
  induction structs as [|s structs IH]; intros importsMap setters Hp.
  { simpl. by rewrite app_nil_r. }
  cbn [printable forallb] in Hp. apply andb_prop in Hp as [Hs Hrest].
  cbn [forRange]. rewrite structStep_fields, (fields_loop_returns _ _ _ _ _ Hs).
  simpl. rewrite (IH _ _ Hrest).
  change (descriptors targets (s :: structs))
    with (map (descriptor s) (targetDecls targets s) ++ descriptors targets structs).
  by rewrite markedBy_app, <- app_assoc.
Qed.

Lemma structs_loop_panics (targets : list string) (structs : list ast.TypeSpec)
    (st : gmap string usedImport * list setter) :
  printable targets structs = false ->
  exists s d msg, s ∈ structs /\ d ∈ targetDecls targets s /\
    getFiledTypeString d.2 = Panic msg /\
    forRange structs (structStep targets) st = Panic msg.
Proof.
  revert st. induction structs as [|s structs IH]; intros [importsMap setters] Hp;
    [done|].
  cbn [printable forallb] in Hp. cbn [forRange]. rewrite structStep_fields.
  destruct (forallb (fun d => supported d.2) (targetDecls targets s)) eqn:Hs.
  - rewrite (fields_loop_returns _ _ _ _ _ Hs). simpl in Hp |- *.
    destruct (IH (markedBy importsMap (map (descriptor s)
                     (omap (targetField targets) (structFields s))),
                  setters ++ map (descriptor s)
                     (omap (targetField targets) (structFields s))) Hp)
      as (s' & d & msg & Hin & Hd & Hm & Hloop).
    exists s', d, msg. split_and!; [by apply list_elem_of_further|done..].
  - destruct (fields_loop_panics targets s _ (importsMap, setters) Hs)
      as (d & Hin & _ & msg & Hm & Hloop).
    exists s, d, msg. split_and!; [apply list_elem_of_here|done|done|].
    by rewrite Hloop.
Qed.

(** Synthesis returns exactly when every target field prints, and then with
    the descriptors in declaration order. *)
Lemma synthesize_returns (t : targetStructs) (targets : list string) :
  printable targets (structs t) = true ->
  synthesize t targets =
  Return (markedBy (newImportsMap (imports t)) (descriptors targets (structs t)),
          descriptors targets (structs t)).
Proof. intros Hp. unfold synthesize. by rewrite (structs_loop_returns _ _ _ _ Hp). Qed.

Lemma synthesize_panics (t : targetStructs) (targets : list string) :
  printable targets (structs t) = false ->
  exists s d msg, s ∈ structs t /\ d ∈ targetDecls targets s /\
    getFiledTypeString d.2 = Panic msg /\ synthesize t targets = Panic msg.
Proof. intros Hp. by apply structs_loop_panics. Qed.

(** ** The Declaration Scanner *)

Lemma imports_loop (importSpecs : list ast.ImportSpec) (acc : list string) :
  forallb (fun importSpec => (2 <=? String.length (ast.PathValue importSpec))%nat)
          importSpecs = true ->
  forRange importSpecs
    (fun importSpec imports =>
       p ← slice_1_to_len_minus_1 (ast.PathValue importSpec); mret (imports ++ [p]))
    acc
  = Return (acc ++ map unquoted importSpecs).
Proof.
  revert acc. induction importSpecs as [|i rest IH]; intros acc Hq.
  { simpl. by rewrite app_nil_r. }
  cbn [forallb] in Hq. apply andb_prop in Hq as [Hi Hrest].
  assert (Hs : slice_1_to_len_minus_1 (ast.PathValue i) = Return (unquoted i)).
  { unfold slice_1_to_len_minus_1. by rewrite Hi. }
  cbn [forRange]. cbv beta. rewrite Hs. simpl.
  rewrite (IH _ Hrest). by rewrite <- app_assoc.
Qed.

Lemma comments_loop (specs : list ast.Spec) (comments : list ast.Comment)
    (acc : list ast.TypeSpec) :
  forRange comments
    (fun comment structs =>
       if strings.HasPrefix (ast.Text comment) "//gen:setters"
       then mret (structs ++ structSpecs specs) else mret structs)
    acc
  = Return (acc ++ flat_map (fun _ => structSpecs specs)
                     (filter (fun comment =>
                        strings.HasPrefix (ast.Text comment) "//gen:setters" = true)
                        comments)).
Proof.
  revert acc. induction comments as [|c rest IH]; intros acc.
  { simpl. by rewrite app_nil_r. }
  cbn [forRange]. rewrite filter_cons.
  destruct (strings.HasPrefix (ast.Text c) "//gen:setters") eqn:Hc.
  - rewrite decide_True by done. simpl. rewrite IH. by rewrite <- app_assoc.
  - rewrite decide_False by (by intros ?). simpl. apply IH.
Qed.

(** At a documented type declaration both captured variables are made
    anew: whatever they held is gone. *)
Lemma inspectNode_eligible (node : ast.File) (genDecl : ast.GenDecl)
    (captured : list ast.TypeSpec * list string) :
  wellQuoted node = true -> eligible genDecl = true ->
  inspectNode node (ast.GenDeclNode genDecl) captured
  = Return (groupStructs genDecl, importPaths node).
Proof.
  intros Hq He. unfold inspectNode, eligible, groupStructs, markerLines in *.
  destruct (ast.Tok genDecl); try discriminate.
  destruct (ast.Doc genDecl) as [doc|]; try discriminate.
  rewrite (imports_loop _ _ Hq). simpl. by rewrite comments_loop.
Qed.

Lemma inspectNode_other (node : ast.File) (n : ast.Node)
    (captured : list ast.TypeSpec * list string) :
  eligibleNode n = false -> inspectNode node n captured = Return captured.
Proof.
  destruct n as [|genDecl|]; try done. unfold eligibleNode, eligible, inspectNode.
  destruct (ast.Tok genDecl); try done. by destruct (ast.Doc genDecl).
Qed.

(** The walk ends with what the last documented type declaration left. *)
Lemma walk_keeps_last (node : ast.File) (ns : list ast.Node)
    (captured : list ast.TypeSpec * list string) :
  wellQuoted node = true ->
  forRange ns (inspectNode node) captured
  = Return (match lastEligible ns with
            | Some genDecl => (groupStructs genDecl, importPaths node)
            | None => captured
            end).
Proof.
  intros Hq. revert captured. induction ns as [|n rest IH]; intros captured; [done|].
  cbn [forRange lastEligible]. destruct (eligibleNode n) eqn:He.
  - destruct n as [|genDecl|]; try discriminate. simpl in He.
    rewrite (inspectNode_eligible _ _ _ Hq He). simpl. rewrite IH, He.
    by destruct (lastEligible rest).
  - rewrite (inspectNode_other _ _ _ He). simpl. rewrite IH.
    destruct (lastEligible rest); [done|].
    destruct n as [|genDecl|]; try done. simpl in He. by rewrite He.
Qed.

Lemma lastEligible_None (ns : list ast.Node) :
  lastEligible ns = None <-> existsb eligibleNode ns = false.
Proof.
  induction ns as [|n rest IH]; [done|]. cbn [lastEligible existsb].
  destruct (lastEligible rest) as [g|].
  - split; [done|]. intros [_ Hr]%orb_false_elim. by apply IH in Hr.
  - destruct IH as [IH _]. rewrite (IH eq_refl), orb_false_r.
    destruct n as [|genDecl|]; try done. simpl. by destruct (eligible genDecl).
Qed.

Section Scanner.

Variable parser_ParseFile : string -> FS -> ast.File + string.

Lemma searchTargetStructs_returns (filename : string) (fs : FS) (node : ast.File) :
  parser_ParseFile filename fs = inl node -> wellQuoted node = true ->
  searchTargetStructs parser_ParseFile filename fs =
  Return (inl {|
    path := filepath.Dir filename;
    filename := filepath.Base filename;
    packageName := ast.Name node;
    imports := match lastEligible (ast.nodes node) with
               | Some _ => importPaths node
               | None => []
               end;
    structs := match lastEligible (ast.nodes node) with
               | Some genDecl => groupStructs genDecl
               | None => []
               end |}).
Proof.
  intros Hparse Hq. unfold searchTargetStructs, ast.Inspect. rewrite Hparse.
  rewrite (walk_keeps_last _ _ _ Hq).
  by destruct (lastEligible (ast.nodes node)).
Qed.

Lemma searchTargetStructs_ParseError (filename : string) (fs : FS) (err : string) :
  parser_ParseFile filename fs = inr err ->
  searchTargetStructs parser_ParseFile filename fs = Return (inr err).
Proof. intros Hparse. unfold searchTargetStructs. by rewrite Hparse. Qed.

End Scanner.

(** ** The claims on the scanner *)

(** C1 (the code departs from the claim).  In a unit with two
    marker-bearing groups, struct [A] in the first and struct [B] in the
    second, the claim has both structs collected.  The callback makes
    [structs] anew at every documented type declaration, so the scan
    returns the struct of the second group alone, and the only setter
    synthesized from it is the one of [B]. *)
Theorem C1_second_marked_group_replaces_first :
  hasMarker (typeGroup (docLines ["//gen:setters"]) [structA]) = true /\
  hasMarker (typeGroup (docLines ["//gen:setters"]) [structB]) = true /\
  searchTargetStructs (parsed twoGroups) "/w/two.go" ∅ =
    Return (inl {| path := "/w"; filename := "two.go"; packageName := "p";
                   imports := ["time"]; structs := [structB] |}) /\
  descriptors targetFields [structB] =
    [{| StructName := "B"; FieldName := "UpdatedAt"; FieldType := "time.Time" |}].
Proof. split_and!; by vm_compute. Qed.

(** C5, as the claim states it, fails: a unit with two imports and no type
    declaration is scanned into a unit whose import list is empty. *)
Lemma C5_no_type_declaration_no_imports :
  importPaths onlyFuncs = ["log"; "time"] /\
  searchTargetStructs (parsed onlyFuncs) "/w/funcs.go" ∅ =
    Return (inl {| path := "/w"; filename := "funcs.go"; packageName := "p";
                   imports := []; structs := [] |}).
Proof. split; by vm_compute. Qed.

(** C5 (amended).  For every unit that parses, the scanner records the
    package name; it records the full ordered list of import paths when
    the walk meets at least one type declaration with a doc comment,
    whether or not that comment carries the marker, and an empty list when
    it meets none. *)
Theorem C5_package_always_imports_when_documented_type
    (parser_ParseFile : string -> FS -> ast.File + string)
    (filename : string) (fs : FS) (node : ast.File) :
  parser_ParseFile filename fs = inl node ->
  wellQuoted node = true ->
  exists t, searchTargetStructs parser_ParseFile filename fs = Return (inl t) /\
    packageName t = ast.Name node /\
    imports t = if existsb eligibleNode (ast.nodes node) then importPaths node else [].
Proof.
  intros Hparse Hq. eexists. split; [by apply searchTargetStructs_returns|].
  split; [done|]. cbn [imports].
  destruct (lastEligible (ast.nodes node)) as [g|] eqn:Hlast.
  - destruct (existsb eligibleNode (ast.nodes node)) eqn:He; [done|].
    apply lastEligible_None in He. congruence.
  - apply lastEligible_None in Hlast. by rewrite Hlast.
Qed.

Lemma C5_witness :
  parsed exampleFile "/w/example/example_v1.go" ∅ = inl exampleFile /\
  wellQuoted exampleFile = true /\
  exists t, searchTargetStructs (parsed exampleFile) "/w/example/example_v1.go" ∅
            = Return (inl t) /\
    packageName t = ast.Name exampleFile /\
    imports t = if existsb eligibleNode (ast.nodes exampleFile)
                then importPaths exampleFile else [].
Proof.
  split; [reflexivity|]. split; [reflexivity|].
  apply (C5_package_always_imports_when_documented_type
           (parsed exampleFile) "/w/example/example_v1.go" ∅ exampleFile);
    reflexivity.
Defined.

(** ** The claims on the printer *)

(** C4.  On every type expression built from the supported node kinds the
    printer returns the text the rules of the specification give: the name
    itself, [*] before a pointer's target, package, [.] and member,
    [[]] before a slice's element, [map[K]V], [interface{}], [...] before
    a variadic element, and [chann], a space and the element for a
    channel. *)
Theorem C4_printer_follows_the_rules (expr : ast.Expr) :
  supported expr = true -> getFiledTypeString expr = Return (printer expr).
Proof. apply printer_returns. Qed.

Lemma C4_witness :
  supported nestedType = true /\
  getFiledTypeString nestedType = Return "map[string][]chann *time.Time".
Proof.
  split; [reflexivity|].
  apply (C4_printer_follows_the_rules nestedType). reflexivity.
Defined.
(** ** The claims on synthesis *)

Lemma forRange_ext {A S : Type} (xs : list A) (f g : A -> S -> outcome S) (acc : S) :
  (forall x a, f x a = g x a) -> forRange xs f acc = forRange xs g acc.
Proof.
  intros Hfg. revert acc. induction xs as [|x xs IH]; intros acc; [done|].
  simpl. rewrite Hfg. destruct (g x acc); [apply IH|done].
Qed.

(** Membership in the targets is plain membership in the list. *)
Lemma containsTargetField_elem (f : string) (targets : list string) :
  containsTargetField f targets = true <-> f ∈ targets.
Proof.
  induction targets as [|target rest IH]; simpl.
  - split; [done|]. by intros ?%elem_of_nil.
  - destruct (String.eqb_spec f target) as [->|Hne].
    + split; [intros _; apply list_elem_of_here|done].
    + rewrite IH. split; [by apply list_elem_of_further|].
      intros [?|?]%elem_of_cons; [done|done].
Qed.

Lemma containsTargetField_same (f : string) (targets targets' : list string) :
  (forall name, name ∈ targets' <-> name ∈ targets) ->
  containsTargetField f targets' = containsTargetField f targets.
Proof.
  intros Hsame. pose proof (containsTargetField_elem f targets) as H1.
  pose proof (containsTargetField_elem f targets') as H2.
  destruct (containsTargetField f targets), (containsTargetField f targets');
    try done.
  - apply (proj2 H2), Hsame, (proj1 H1). done.
  - symmetry. apply (proj2 H1), Hsame, (proj1 H2). done.
Qed.

Lemma synthesize_same_targets (t : targetStructs) (targets targets' : list string) :
  (forall name, name ∈ targets' <-> name ∈ targets) ->
  synthesize t targets' = synthesize t targets.
Proof.
  intros Hsame. unfold synthesize. apply forRange_ext. intros s st.
  unfold structStep. destruct (ast.SpecType s); try done.
  apply forRange_ext. intros field [importsMap setters]. unfold fieldStep.
  destruct (ast.Names field) as [|name rest]; [done|].
  by rewrite (containsTargetField_same name _ _ Hsame).
Qed.

(** Not every name that is a target has its descriptor.  In
    [type T struct { ID, CreatedAt int64 }] the field [CreatedAt] is a
    target, and no descriptor is made for it; in
    [type T struct { CreatedAt *func() }] the printer panics at the target
    field, and no descriptor is made at all. *)
Lemma not_every_target_name_described :
  ~ everyTargetNameDescribed sharedNames targetFields /\
  ~ everyTargetNameDescribed funcFieldUnit targetFields.
Proof.
  split; intros Hall.
  - destruct (Hall (structOf "T" [ast.mkField ["ID"; "CreatedAt"] (ast.Ident "int64")])
                   (ast.mkField ["ID"; "CreatedAt"] (ast.Ident "int64")) "CreatedAt")
      as (importsMap & setters & Hsyn & d & Hd & _).
    + apply list_elem_of_here.
    + apply list_elem_of_here.
    + apply list_elem_of_further, list_elem_of_here.
    + reflexivity.
    + vm_compute in Hsyn. injection Hsyn as _ <-. by apply elem_of_nil in Hd.
  - destruct (Hall (structOf "T" [funcField]) funcField "CreatedAt")
      as (importsMap & setters & Hsyn & _).
    + apply list_elem_of_here.
    + apply list_elem_of_here.
    + apply list_elem_of_here.
    + reflexivity.
    + vm_compute in Hsyn. discriminate Hsyn.
Qed.

(** C3 (the code departs from the claim).  The struct
    [type T struct { ID, CreatedAt int64 }] has a field [CreatedAt], and
    [CreatedAt] is a target: the claim has one descriptor appended for it.
    The loop reads the first name of a field declaration only, here [ID],
    and appends nothing; the same two fields declared one by one get the
    descriptor.  The opening comment of the program promises the setters
    to every marked struct that has the target fields. *)
Theorem C3_later_target_name_gets_no_setter :
  ast.mkField ["ID"; "CreatedAt"] (ast.Ident "int64") ∈ structFields
    (structOf "T" [ast.mkField ["ID"; "CreatedAt"] (ast.Ident "int64")]) /\
  "CreatedAt" ∈ ast.Names (ast.mkField ["ID"; "CreatedAt"] (ast.Ident "int64")) /\
  containsTargetField "CreatedAt" targetFields = true /\
  synthesize sharedNames targetFields = Return (∅, []) /\
  synthesize
    (withStructs sharedNames
       [structOf "T" [ast.mkField ["ID"] (ast.Ident "int64");
                      ast.mkField ["CreatedAt"] (ast.Ident "int64")]])
    targetFields
  = Return (∅, [{| StructName := "T"; FieldName := "CreatedAt";
                   FieldType := "int64" |}]).
Proof.
  split_and!; [apply list_elem_of_here
              |apply list_elem_of_further, list_elem_of_here
              |reflexivity|by vm_compute|by vm_compute].
Qed.

(** What does hold of the order of the descriptors.  For every struct of
    the unit and every field declaration of its body whose first listed
    name is a member of the targets, one descriptor is appended, in struct
    and field declaration order, provided the type of every such field is
    of supported kinds; and the order of the targets has no effect on the
    result. *)
Theorem descriptors_in_declaration_order (t : targetStructs)
    (targets targets' : list string) :
  printable targets (structs t) = true ->
  targets' ≡ₚ targets ->
  (exists importsMap,
     synthesize t targets = Return (importsMap, descriptors targets (structs t))) /\
  synthesize t targets' = synthesize t targets.
Proof.
  intros Hp Hperm. split.
  - eexists. by apply synthesize_returns.
  - apply synthesize_same_targets. intros name. by rewrite Hperm.
Qed.

Lemma descriptors_in_declaration_order_witness :
  printable targetFields (structs exampleUnit) = true /\
  ["UpdatedAt"; "CreatedAt"] ≡ₚ targetFields /\
  (exists importsMap,
     synthesize exampleUnit targetFields =
     Return (importsMap,
             [{| StructName := "example"; FieldName := "CreatedAt";
                 FieldType := "time.Time" |};
              {| StructName := "example"; FieldName := "UpdatedAt";
                 FieldType := "time.Time" |}])) /\
  synthesize exampleUnit ["UpdatedAt"; "CreatedAt"] = synthesize exampleUnit targetFields.
Proof.
  split; [reflexivity|]. split; [apply Permutation_swap|].
  apply (descriptors_in_declaration_order exampleUnit targetFields
           ["UpdatedAt"; "CreatedAt"]); [reflexivity|apply Permutation_swap].
Defined.

(** C2 (the code departs from the claim).  The target field
    [CreatedAt *time.Time] prints as [*time.Time], a text with a [.] whose
    qualifier names the import [time]; the claim has that import marked
    used and listed.  The program looks the import up under everything
    before the first [.], here [*time]: the entry of [time] stays unused
    and the import block handed to the template is empty. *)
Theorem C2_pointer_to_qualified_type_loses_import :
  getFiledTypeString (ast.StarExpr timeTime) = Return "*time.Time" /\
  qualifier "*time.Time" = Some "*time" /\
  synthesize pointerTime targetFields =
    Return ({[ "time" := {| pkg := "time"; used := false |} ]},
            [{| StructName := "T"; FieldName := "CreatedAt";
                FieldType := "*time.Time" |}]) /\
  Imports (templateDataOf rangeAsListed pointerTime
             ({[ "time" := {| pkg := "time"; used := false |} ]},
              [{| StructName := "T"; FieldName := "CreatedAt";
                  FieldType := "*time.Time" |}])) = [].
Proof. split_and!; by vm_compute. Qed.

(** C10.  A field declaration without names leaves the synthesis state as
    it was; a declaration with several names is treated as the declaration
    of its first name alone; so the synthesis of a unit is that of the unit
    with embedded fields removed and every declaration cut to its first
    name. *)
Theorem C10_embedded_skipped_first_name_tested :
  (forall targets s typ st,
     fieldStep targets s (ast.mkField [] typ) st = Return st) /\
  (forall targets s name others typ st,
     fieldStep targets s (ast.mkField (name :: others) typ) st =
     fieldStep targets s (ast.mkField [name] typ) st) /\
  (forall t targets,
     synthesize (withStructs t (map firstNamesOnly (structs t))) targets =
     synthesize t targets).
Proof.
  split_and!.
  - by intros targets s typ [importsMap setters].
  - by intros targets s name others typ [importsMap setters].
  - intros t targets. unfold synthesize. cbn [structs imports withStructs].
    generalize (newImportsMap (imports t), @nil setter).
    induction (structs t) as [|s ss IH]; intros st; [done|].
    cbn [map forRange].
    assert (Hs : structStep targets (firstNamesOnly s) st = structStep targets s st).
    { rewrite !structStep_fields. unfold structFields, firstNamesOnly. simpl.
      destruct (ast.SpecType s) as [| | | | | | | | |fields| | | | | | ]; try done.
      revert st. induction fields as [|field fields IHf]; intros st; [done|].
      cbn [flat_map]. rewrite forRange_app. cbn [forRange].
      destruct field as [names typ]. destruct st as [importsMap setters].
      destruct names as [|name others]; simpl; [apply IHf|].
      destruct (containsTargetField name targets); simpl; [|apply IHf].
      destruct (getFiledTypeString typ); simpl; [|done].
      destruct (markImport a importsMap); simpl; [apply IHf|done]. }
    rewrite Hs. destruct (structStep targets s st); simpl; [apply IH|done].
Qed.
(** C6.  When synthesis yields no descriptor, [generateTargetSetter]
    returns a nil error and the file system is as it was: nothing is
    rendered, formatted or written. *)
Theorem C6_no_descriptor_no_file
    (format_Source : string -> string + string)
    (mapRange : list (string * usedImport) -> list (string * usedImport))
    (writeError : string -> error)
    (t : targetStructs) (targets : list string) (fs : FS)
    (importsMap : gmap string usedImport) :
  synthesize t targets = Return (importsMap, []) ->
  generateTargetSetter format_Source mapRange writeError t targets fs
  = Return (None, fs).
Proof. intros Hsyn. unfold generateTargetSetter. by rewrite Hsyn. Qed.

Lemma C6_witness :
  synthesize noTargets targetFields
    = Return ({[ "time" := {| pkg := "time"; used := false |} ]}, []) /\
  generateTargetSetter formatAsIs rangeAsListed writable noTargets targetFields
    {[ "/w/t.go" := "package p" ]}
  = Return (None, {[ "/w/t.go" := "package p" ]}).
Proof.
  split; [by vm_compute|].
  apply (C6_no_descriptor_no_file formatAsIs rangeAsListed writable noTargets
           targetFields {[ "/w/t.go" := "package p" ]}
           {[ "time" := {| pkg := "time"; used := false |} ]}).
  by vm_compute.
Defined.

(** An unsupported node the printer comes to makes the type unprintable. *)
Lemma unsupported_node_not_supported (expr n : ast.Expr) :
  n ∈ printedNodes expr -> supportedKind n = false -> supported expr = false.
Proof.
  intros Hin Hk. destruct (supported expr) eqn:Hs; [|done].
  unfold supported in Hs. rewrite forallb_forall in Hs.
  apply list_elem_of_In, Hs in Hin. congruence.
Qed.

Lemma unprintable_field (targets : list string) (ss : list ast.TypeSpec)
    (s : ast.TypeSpec) (field : ast.Field) (name : string) (rest : list string) :
  s ∈ ss -> field ∈ structFields s -> ast.Names field = name :: rest ->
  containsTargetField name targets = true ->
  supported (ast.Typ field) = false ->
  printable targets ss = false.
Proof.
  intros Hs Hf Hn Hc Hu. destruct (printable targets ss) eqn:Hp; [|done].
  unfold printable in Hp. rewrite forallb_forall in Hp.
  apply list_elem_of_In, Hp in Hs. rewrite forallb_forall in Hs.
  assert (Hd : (name, ast.Typ field) ∈ targetDecls targets s).
  { unfold targetDecls. apply list_elem_of_omap. exists field. split; [done|].
    unfold targetField. by rewrite Hn, Hc. }
  apply list_elem_of_In, Hs in Hd. simpl in Hd. congruence.
Qed.

(** C9.  At a node of a kind outside the supported ones the printer
    panics, naming the kind.  When such a node lies in the type of a
    target field, the panic unwinds through the printer, through
    [generateTargetSetter], which returns nothing and writes nothing, and
    through the processing of that file. *)
Theorem C9_unsupported_kind_panics
    (parser_ParseFile : string -> FS -> ast.File + string)
    (format_Source : string -> string + string)
    (mapRange : list (string * usedImport) -> list (string * usedImport))
    (writeError : string -> error)
    (file : string) (fs : FS) (log : list string)
    (t : targetStructs) (targets : list string)
    (s : ast.TypeSpec) (field : ast.Field) (name : string) (rest : list string)
    (n : ast.Expr) :
  searchTargetStructs parser_ParseFile file fs = Return (inl t) ->
  s ∈ structs t -> field ∈ structFields s ->
  ast.Names field = name :: rest -> containsTargetField name targets = true ->
  n ∈ printedNodes (ast.Typ field) -> supportedKind n = false ->
  getFiledTypeString n = Panic ("unsupported type: " +:+ goTypeName n) /\
  (exists msg, getFiledTypeString (ast.Typ field) = Panic msg) /\
  exists msg,
    generateTargetSetter format_Source mapRange writeError t targets fs = Panic msg /\
    processFile parser_ParseFile format_Source mapRange writeError targets file (fs, log)
      = Panic msg.
Proof.
  intros Hscan Hs Hf Hn Hc Hin Hk.
  pose proof (unsupported_node_not_supported _ _ Hin Hk) as Hu.
  split; [by apply printer_panics_at|]. split.
  - destruct (printer_panics_inside _ Hu) as (n' & _ & _ & Hp). by eexists.
  - destruct (synthesize_panics t targets
                (unprintable_field _ _ _ _ _ _ Hs Hf Hn Hc Hu))
      as (s' & d & msg & _ & _ & _ & Hsyn).
    exists msg.
    assert (Hgen : generateTargetSetter format_Source mapRange writeError t targets fs
                   = Panic msg).
    { unfold generateTargetSetter. by rewrite Hsyn. }
    split; [done|]. unfold processFile. by rewrite Hscan; simpl; rewrite Hgen.
Qed.

Lemma C9_witness :
  searchTargetStructs (parsed funcFieldFile) "/w/t.go" ∅ = Return (inl funcFieldUnit) /\
  structOf "T" [funcField] ∈ structs funcFieldUnit /\
  funcField ∈ structFields (structOf "T" [funcField]) /\
  ast.Names funcField = "CreatedAt" :: [] /\
  containsTargetField "CreatedAt" targetFields = true /\
  ast.FuncType [] [] ∈ printedNodes (ast.Typ funcField) /\
  supportedKind (ast.FuncType [] []) = false /\
  getFiledTypeString (ast.FuncType [] []) = Panic "unsupported type: *ast.FuncType" /\
  (exists msg, getFiledTypeString (ast.Typ funcField) = Panic msg) /\
  exists msg,
    generateTargetSetter formatAsIs rangeAsListed writable funcFieldUnit targetFields ∅
      = Panic msg /\
    processFile (parsed funcFieldFile) formatAsIs rangeAsListed writable targetFields
      "/w/t.go" (∅, []) = Panic msg.
Proof.
  assert (H1 : searchTargetStructs (parsed funcFieldFile) "/w/t.go" ∅
               = Return (inl funcFieldUnit)) by (by vm_compute).
  assert (H2 : structOf "T" [funcField] ∈ structs funcFieldUnit)
    by apply list_elem_of_here.
  assert (H3 : funcField ∈ structFields (structOf "T" [funcField]))
    by apply list_elem_of_here.
  assert (H6 : ast.FuncType [] [] ∈ printedNodes (ast.Typ funcField))
    by apply list_elem_of_further, list_elem_of_here.
  split_and!; try done;
    apply (C9_unsupported_kind_panics (parsed funcFieldFile) formatAsIs rangeAsListed
             writable "/w/t.go" ∅ [] funcFieldUnit targetFields
             (structOf "T" [funcField]) funcField "CreatedAt" []
             (ast.FuncType [] []) H1 H2 H3 eq_refl eq_refl H6 eq_refl).
Defined.

(** C7 (the code departs from the claim).  The import block is filled by
    ranging over a Go map, whose order is not fixed.  On a unit that uses
    two imports, two runs that differ in nothing but that order write two
    different files; the formatter does not undo it, since the template
    puts every import in a group of its own. *)
Theorem C7_import_order_follows_map_range :
  (forall entries, rangeAsListed entries ≡ₚ entries) /\
  (forall entries, rangeReversed entries ≡ₚ entries) /\
  generateTargetSetter formatAsIs rangeAsListed writable twoImports targetFields ∅
    = Return (None,
        {[ "/w/row_setters.go" :=
             setterTemplate {| PackageName := "p";
                               Imports := ["github.com/google/uuid"; "time"];
                               Setters := rowSetters |} ]}) /\
  generateTargetSetter formatAsIs rangeReversed writable twoImports targetFields ∅
    = Return (None,
        {[ "/w/row_setters.go" :=
             setterTemplate {| PackageName := "p";
                               Imports := ["time"; "github.com/google/uuid"];
                               Setters := rowSetters |} ]}) /\
  setterTemplate {| PackageName := "p";
                    Imports := ["github.com/google/uuid"; "time"];
                    Setters := rowSetters |}
  <> setterTemplate {| PackageName := "p";
                       Imports := ["time"; "github.com/google/uuid"];
                       Setters := rowSetters |}.
Proof.
  split_and!.
  - done.
  - intros entries. symmetry. apply Permutation_rev.
  - by vm_compute.
  - by vm_compute.
  - intros Heq. vm_compute in Heq. discriminate Heq.
Qed.

(** ** Strings and paths *)

Lemma append_cons (x : ascii) (a b : string) : String x a +:+ b = String x (a +:+ b).
Proof. reflexivity. Qed.

Lemma append_assoc (a b c : string) : (a +:+ b) +:+ c = a +:+ (b +:+ c).
Proof.
  induction a as [|x a IH]; [done|]. rewrite !append_cons. by f_equal.
Qed.

Lemma append_empty_r (a : string) : a +:+ "" = a.
Proof. induction a as [|x a IH]; [done|]. rewrite append_cons. by f_equal. Qed.

Lemma length_append (a b : string) :
  String.length (a +:+ b) = String.length a + String.length b.
Proof.
  induction a as [|x a IH]; [done|]. rewrite append_cons. simpl. by f_equal.
Qed.

Lemma substring_whole (a : string) : String.substring 0 (String.length a) a = a.
Proof. induction a as [|x a IH]; simpl; [done|by f_equal]. Qed.

Lemma substring_take (a b : string) :
  String.substring 0 (String.length a) (a +:+ b) = a.
Proof.
  induction a as [|x a IH]; [by destruct b|]. rewrite append_cons. simpl. by f_equal.
Qed.

Lemma substring_drop (a b : string) (k : nat) :
  String.substring (String.length a) k (a +:+ b) = String.substring 0 k b.
Proof. induction a as [|x a IH]; [done|]. rewrite append_cons. simpl. apply IH. Qed.

Lemma TrimSuffix_append (a suffix : string) :
  strings.TrimSuffix (a +:+ suffix) suffix = a.
Proof.
  unfold strings.TrimSuffix, strings.HasSuffix. rewrite length_append.
  replace (String.length a + String.length suffix - String.length suffix)
    with (String.length a) by lia.
  rewrite substring_drop, substring_whole, String.eqb_refl, substring_take.
  replace (String.length suffix <=? String.length a + String.length suffix)%nat
    with true; [done|].
  symmetry. apply Nat.leb_le. lia.
Qed.

Lemma HasPrefix_empty (s : string) : strings.HasPrefix s "" = true.
Proof. by destruct s. Qed.

Lemma HasPrefix_slash (c : ascii) (s : string) :
  strings.HasPrefix (String c s) "/" = Ascii.eqb "/"%char c.
Proof.
  cbn [strings.HasPrefix]. rewrite HasPrefix_empty.
  by destruct (Ascii.eqb "/"%char c).
Qed.

(** [Split] passes over a piece without a separator, collecting it. *)
Lemma split_plain (e cur rest : string) :
  strings.Contains e "/" = false ->
  strings.split_from "/" 0 cur (e +:+ rest) = strings.split_from "/" 0 (cur +:+ e) rest.
Proof.
  revert cur. induction e as [|c e IH]; intros cur Hc.
  { by rewrite append_empty_r. }
  cbn [strings.Contains] in Hc. apply orb_false_elim in Hc as [Hhead Hrest].
  rewrite HasPrefix_slash in Hhead.
  change (String c e +:+ rest) with (String c (e +:+ rest)).
  cbn [strings.split_from]. rewrite HasPrefix_slash, Hhead.
  by rewrite (IH _ Hrest), append_assoc.
Qed.

Lemma split_sep (cur rest : string) :
  strings.split_from "/" 0 cur (String "/" rest)
  = cur :: strings.split_from "/" 0 "" rest.
Proof. cbn [strings.split_from]. by rewrite HasPrefix_slash. Qed.

Lemma split_join (e : string) (es : list string) (cur : string) :
  forallb (fun x => negb (strings.Contains x "/")) (e :: es) = true ->
  strings.split_from "/" 0 cur (strings.Join (e :: es) "/") = (cur +:+ e) :: es.
Proof.
  revert e cur. induction es as [|e' es IH]; intros e cur Hp;
    cbn [forallb] in Hp; apply andb_prop in Hp as [He Hes];
    apply negb_true_iff in He.
  - cbn [strings.Join]. rewrite <- (append_empty_r e) at 1.
    by rewrite (split_plain _ _ _ He).
  - change (strings.Join (e :: e' :: es) "/")
      with (e +:+ String "/" (strings.Join (e' :: es) "/")).
    rewrite (split_plain _ _ _ He), split_sep. by rewrite (IH _ _ Hes).
Qed.

Lemma plainElement_noslash (es : list string) :
  forallb plainElement es = true ->
  forallb (fun x => negb (strings.Contains x "/")) es = true.
Proof.
  induction es as [|e es IH]; [done|]. cbn [forallb].
  intros [He Hes]%andb_prop. rewrite (IH Hes), andb_true_r.
  unfold plainElement in He. by repeat apply andb_prop in He as [He _].
Qed.

Lemma clean_step_plain (rooted : bool) (kept : list string) (e : string) :
  plainElement e = true -> filepath.clean_step rooted kept e = e :: kept.
Proof.
  unfold plainElement, filepath.clean_step.
  intros [[[_ H1]%andb_prop H2]%andb_prop H3]%andb_prop.
  apply negb_true_iff in H1, H2, H3. by rewrite H1, H2, H3.
Qed.

Lemma clean_fold_plain (rooted : bool) (es kept : list string) :
  forallb plainElement es = true ->
  fold_left (filepath.clean_step rooted) es kept = rev es ++ kept.
Proof.
  revert kept. induction es as [|e es IH]; intros kept Hp; [done|].
  cbn [forallb] in Hp. apply andb_prop in Hp as [He Hes].
  cbn [fold_left]. rewrite (clean_step_plain _ _ _ He), (IH _ Hes).
  simpl. by rewrite <- app_assoc.
Qed.

(** An absolute path of plain elements is clean already. *)
Lemma Clean_absolute (es : list string) :
  es <> [] -> forallb plainElement es = true ->
  filepath.Clean ("/" +:+ strings.Join es "/") = "/" +:+ strings.Join es "/".
Proof.
  intros Hne Hp. destruct es as [|e es]; [done|].
  unfold filepath.Clean, filepath.elements, strings.Split.
  change ("/" +:+ strings.Join (e :: es) "/")
    with (String "/" (strings.Join (e :: es) "/")).
  rewrite HasPrefix_slash, split_sep.
  rewrite (split_join _ _ _ (plainElement_noslash _ Hp)).
  change ("/" =? "/")%char with true. change ("" +:+ e) with e.
  change (fold_left (filepath.clean_step true) ("" :: e :: es) [])
    with (fold_left (filepath.clean_step true) (e :: es) []).
  by rewrite (clean_fold_plain _ _ _ Hp), app_nil_r, rev_involutive.
Qed.

Lemma Join_snoc (es : list string) (x sep : string) :
  es <> [] ->
  strings.Join (es ++ [x]) sep = strings.Join es sep +:+ sep +:+ x.
Proof.
  induction es as [|e es IH]; [done|]. intros _.
  destruct es as [|e' es]; [done|].
  change (strings.Join ((e :: e' :: es) ++ [x]) sep)
    with (e +:+ sep +:+ strings.Join ((e' :: es) ++ [x]) sep).
  rewrite IH by done.
  change (strings.Join (e :: e' :: es) sep)
    with (e +:+ sep +:+ strings.Join (e' :: es) sep).
  by rewrite !append_assoc.
Qed.

(** Joining a file name to an absolute directory of plain elements puts a
    separator between them and nothing more. *)
Lemma Join_dir_file (es : list string) (name : string) :
  es <> [] -> forallb plainElement es = true -> plainElement name = true ->
  filepath.Join ["/" +:+ strings.Join es "/"; name]
  = ("/" +:+ strings.Join es "/") +:+ "/" +:+ name.
Proof.
  intros Hne Hp Hn. cbn [filepath.Join String.eqb].
  change (strings.Join ["/" +:+ strings.Join es "/"; name] "/")
    with (("/" +:+ strings.Join es "/") +:+ "/" +:+ name).
  rewrite append_assoc, <- (Join_snoc es name "/" Hne).
  apply Clean_absolute.
  - by destruct es.
  - rewrite forallb_app, Hp. simpl. by rewrite Hn.
Qed.

(** ** The template *)

Lemma htmlEscaper_safe (s : string) : htmlSafe s = true -> htmlEscaper s = s.
Proof.
  induction s as [|c s IH]; [done|]. cbn [htmlSafe htmlEscaper].
  destruct (htmlReplacement c); [done|]. intros Hs. by rewrite (IH Hs).
Qed.

Lemma importLine_safe (importPath : string) :
  htmlSafe importPath = true ->
  importLine importPath = nl +:+ importEntry importPath +:+ nl.
Proof.
  intros Hs. unfold importLine, importEntry.
  by rewrite (htmlEscaper_safe _ Hs), !append_assoc.
Qed.

Lemma setterMethod_safe (s : setter) :
  setterSafe s = true -> setterMethod s = nl +:+ setterShape s +:+ nl.
Proof.
  unfold setterSafe. intros [[H1 H2]%andb_prop H3]%andb_prop.
  unfold setterMethod, setterShape.
  by rewrite (htmlEscaper_safe _ H1), (htmlEscaper_safe _ H2),
       (htmlEscaper_safe _ H3), !append_assoc.
Qed.

Lemma map_safe {A : Type} (safe : A -> bool) (f g : A -> string) (xs : list A) :
  (forall x, safe x = true -> f x = g x) ->
  forallb safe xs = true -> map f xs = map g xs.
Proof.
  intros Hfg. induction xs as [|x xs IH]; [done|]. cbn [forallb map].
  intros [Hx Hxs]%andb_prop. by rewrite (Hfg _ Hx), (IH Hxs).
Qed.

(** On values without HTML-special bytes the executed template is the
    text of the generated-file contract. *)
Lemma setterTemplate_safe (data : templateData) :
  dataSafe data = true -> setterTemplate data = generatedSource data.
Proof.
  unfold dataSafe. intros [[Hp Hi]%andb_prop Hs]%andb_prop.
  unfold setterTemplate, generatedSource, packageClause, importBlock.
  rewrite (htmlEscaper_safe _ Hp).
  rewrite (map_safe htmlSafe importLine _ _ importLine_safe Hi).
  rewrite (map_safe setterSafe setterMethod _ _ setterMethod_safe Hs).
  by rewrite !append_assoc.
Qed.

(** ** The import block *)

Lemma usedImports_elem
    (mapRange : list (string * usedImport) -> list (string * usedImport))
    (importsMap : gmap string usedImport) (p : string) :
  (forall entries, mapRange entries ≡ₚ entries) ->
  p ∈ usedImports mapRange importsMap <->
  exists short imp, importsMap !! short = Some imp /\ used imp = true /\ pkg imp = p.
Proof.
  intros Hperm. unfold usedImports. rewrite list_elem_of_In, in_map_iff. split.
  - intros ([short imp] & Hp & Hin). apply list_elem_of_In, list_elem_of_filter in Hin.
    destruct Hin as [Hused Hin]. rewrite Hperm in Hin.
    apply elem_of_map_to_list in Hin. by exists short, imp.
  - intros (short & imp & Hl & Hused & Hp). exists (short, imp). split; [done|].
    apply list_elem_of_In, list_elem_of_filter. split; [done|].
    rewrite Hperm. by apply elem_of_map_to_list.
Qed.

Lemma newImportsMap_from (imports : list string)
    (importsMap : gmap string usedImport) (short : string) :
  fold_left (fun importsMap imp =>
               <[filepath.Base imp := {| pkg := imp; used := false |}]> importsMap)
            imports importsMap !! short
  = match importNamed imports short with
    | Some p => Some {| pkg := p; used := false |}
    | None => importsMap !! short
    end.
Proof.
  revert importsMap. induction imports as [|imp rest IH]; intros importsMap; [done|].
  cbn [fold_left]. rewrite IH. unfold importNamed. rewrite filter_cons.
  destruct (decide (filepath.Base imp = short)) as [Heq|Hne].
  - rewrite last_cons.
    destruct (last (filter (fun imp => filepath.Base imp = short) rest)); [done|].
    by rewrite Heq, lookup_insert_eq.
  - destruct (last (filter (fun imp => filepath.Base imp = short) rest)); [done|].
    by rewrite lookup_insert_ne.
Qed.

Lemma newImportsMap_lookup (imports : list string) (short : string) :
  newImportsMap imports !! short
  = (fun p => {| pkg := p; used := false |}) <$> importNamed imports short.
Proof.
  unfold newImportsMap. rewrite newImportsMap_from.
  by destruct (importNamed imports short).
Qed.

Lemma marked_lookup (importsMap : gmap string usedImport) (fieldType short : string) :
  marked importsMap fieldType !! short
  = if decide (qualifier fieldType = Some short)
    then setUsed <$> importsMap !! short
    else importsMap !! short.
Proof.
  unfold marked. destruct (qualifier fieldType) as [pkg|].
  - destruct (decide (Some pkg = Some short)) as [[= ->]|Hne].
    + destruct (importsMap !! short) as [imp|] eqn:Hl; simpl.
      * by rewrite lookup_insert_eq.
      * done.
    + destruct (importsMap !! pkg) as [imp|] eqn:Hl; [|done].
      rewrite lookup_insert_ne; [done|]. by intros ->.
  - by destruct (decide (None = Some short)).
Qed.

Lemma markedBy_lookup (importsMap : gmap string usedImport) (setters : list setter)
    (short : string) :
  markedBy importsMap setters !! short
  = (fun imp =>
       if decide (Exists (fun d => qualifier (FieldType d) = Some short) setters)
       then setUsed imp else imp) <$> importsMap !! short.
Proof.
  revert importsMap. induction setters as [|d ds IH]; intros importsMap.
  - unfold markedBy. cbn [map foldl].
    destruct (importsMap !! short); cbn [fmap option_fmap option_map]; [|done].
    case_decide as He; [by apply Exists_nil in He|done].
  - change (markedBy importsMap (d :: ds))
      with (markedBy (marked importsMap (FieldType d)) ds).
    rewrite IH, marked_lookup.
    destruct (decide (qualifier (FieldType d) = Some short)) as [Hq|Hq];
      destruct (importsMap !! short) as [imp|]; simpl; try done.
    + rewrite (decide_True (P := Exists _ (d :: ds))) by (by apply Exists_cons_hd).
      by destruct (decide (Exists _ ds)).
    + destruct (decide (Exists (fun d => qualifier (FieldType d) = Some short) ds))
        as [He|He].
      * by rewrite decide_True by (by apply Exists_cons_tl).
      * rewrite decide_False; [done|]. by intros [?|?]%Exists_cons.
Qed.

(** The import block lists the imports some descriptor's type names before
    its first [.], and no other. *)
Lemma usedImports_spec
    (mapRange : list (string * usedImport) -> list (string * usedImport))
    (imports : list string) (setters : list setter) (p : string) :
  (forall entries, mapRange entries ≡ₚ entries) ->
  p ∈ usedImports mapRange (markedBy (newImportsMap imports) setters) <->
  exists short, importNamed imports short = Some p /\
    Exists (fun d => qualifier (FieldType d) = Some short) setters.
Proof.
  intros Hperm. rewrite (usedImports_elem _ _ _ Hperm). split.
  - intros (short & imp & Hl & Hused & Hp). exists short.
    rewrite markedBy_lookup, newImportsMap_lookup in Hl.
    destruct (importNamed imports short) as [q|]; [|done]. simpl in Hl.
    destruct (decide (Exists (fun d => qualifier (FieldType d) = Some short) setters))
      as [He|He]; injection Hl as <-; simpl in *; [by subst|done].
  - intros (short & Hn & He). exists short, {| pkg := p; used := true |}.
    split_and!; [|done..]. rewrite markedBy_lookup, newImportsMap_lookup, Hn. simpl.
    by rewrite decide_True.
Qed.

(** ** The generated file *)

(** C8.  For a unit [foo.go] in the directory [dir] that yields at least
    one descriptor, the text given to the formatter is a package clause
    with the unit's package name, an import block that lists the imports
    named by the descriptors' types and no other, and one method
    [func (s *Type) SetField(v FieldType) { s.Field = v }] per descriptor;
    the formatted text is written to [dir/foo_setters.go]. *)
Theorem C8_generated_file_contract
    (format_Source : string -> string + string)
    (mapRange : list (string * usedImport) -> list (string * usedImport))
    (writeError : string -> error)
    (t : targetStructs) (targets : list string) (fs : FS)
    (dir foo formatted : string) (elems : list string) :
  (forall entries, mapRange entries ≡ₚ entries) ->
  printable targets (structs t) = true ->
  descriptors targets (structs t) <> [] ->
  path t = dir -> dir = "/" +:+ strings.Join elems "/" ->
  elems <> [] -> forallb plainElement elems = true ->
  filename t = foo +:+ ".go" -> plainElement (foo +:+ "_setters.go") = true ->
  dataSafe (unitData mapRange t targets) = true ->
  format_Source (generatedSource (unitData mapRange t targets)) = inl formatted ->
  writeError (dir +:+ "/" +:+ foo +:+ "_setters.go") = None ->
  (forall p, p ∈ Imports (unitData mapRange t targets) <->
     exists short, importNamed (imports t) short = Some p /\
       Exists (fun d => qualifier (FieldType d) = Some short)
              (descriptors targets (structs t))) /\
  generateTargetSetter format_Source mapRange writeError t targets fs
  = Return (None, <[dir +:+ "/" +:+ foo +:+ "_setters.go" := formatted]> fs).
Proof.
  intros Hperm Hprint Hne Hpath Hdir Helems Hplain Hfile Hname Hsafe Hfmt Hwrite.
  split; [intros p; by apply usedImports_spec|].
  unfold generateTargetSetter. rewrite (synthesize_returns _ _ Hprint).
  cbn [mbind outcome_bind snd].
  destruct (descriptors targets (structs t)) as [|d ds] eqn:Hds; [done|].
  cbn [length Nat.eqb]. rewrite <- Hds.
  change (templateDataOf mapRange t
            (markedBy (newImportsMap (imports t)) (descriptors targets (structs t)),
             descriptors targets (structs t)))
    with (unitData mapRange t targets).
  rewrite (setterTemplate_safe _ Hsafe), Hfmt.
  unfold os_WriteFile, outputPath.
  rewrite Hpath, Hfile, TrimSuffix_append, Hdir.
  rewrite (Join_dir_file _ _ Helems Hplain Hname), <- Hdir, Hwrite. done.
Qed.

Lemma C8_witness :
  (forall entries, rangeAsListed entries ≡ₚ entries) /\
  printable targetFields (structs exampleUnit) = true /\
  descriptors targetFields (structs exampleUnit) <> [] /\
  path exampleUnit = "/w/example" /\
  "/w/example" = "/" +:+ strings.Join ["w"; "example"] "/" /\
  ["w"; "example"] <> [] /\
  forallb plainElement ["w"; "example"] = true /\
  filename exampleUnit = "example_v1" +:+ ".go" /\
  plainElement ("example_v1" +:+ "_setters.go") = true /\
  dataSafe (unitData rangeAsListed exampleUnit targetFields) = true /\
  formatAsIs (generatedSource (unitData rangeAsListed exampleUnit targetFields))
    = inl (generatedSource (unitData rangeAsListed exampleUnit targetFields)) /\
  writable ("/w/example" +:+ "/" +:+ "example_v1" +:+ "_setters.go") = None /\
  (forall p, p ∈ Imports (unitData rangeAsListed exampleUnit targetFields) <->
     exists short, importNamed (imports exampleUnit) short = Some p /\
       Exists (fun d => qualifier (FieldType d) = Some short)
              (descriptors targetFields (structs exampleUnit))) /\
  generateTargetSetter formatAsIs rangeAsListed writable exampleUnit targetFields ∅
  = Return (None,
      <["/w/example" +:+ "/" +:+ "example_v1" +:+ "_setters.go" :=
          generatedSource (unitData rangeAsListed exampleUnit targetFields)]> ∅).
Proof.
  assert (Hperm : forall entries, rangeAsListed entries ≡ₚ entries) by done.
  assert (Hne : descriptors targetFields (structs exampleUnit) <> []) by done.
  assert (Helems : ["w"; "example"] <> []) by done.
  split_and!; try done;
    apply (C8_generated_file_contract formatAsIs rangeAsListed writable exampleUnit
             targetFields ∅ "/w/example" "example_v1"
             (generatedSource (unitData rangeAsListed exampleUnit targetFields))
             ["w"; "example"] Hperm eq_refl Hne eq_refl eq_refl Helems eq_refl
             eq_refl eq_refl eq_refl eq_refl eq_refl).
Defined.

Example example_imports :
  Imports (unitData rangeAsListed exampleUnit targetFields) = ["time"].
Proof. by vm_compute. Qed.

(** ** What the order of a map range can and cannot change *)

Lemma Permutation_short {A : Type} (l1 l2 : list A) :
  l1 ≡ₚ l2 -> length l1 <= 1 -> l1 = l2.
Proof.
  intros Hperm Hlen. destruct l1 as [|x [|y l1]]; simpl in Hlen; [| |lia].
  - by apply Permutation_nil_l in Hperm.
  - by apply Permutation_singleton_l in Hperm.
Qed.

(** With at most one import in use, every order of the range gives the
    same import block, and so the same run. *)
Lemma usedImports_one_order
    (mapRange mapRange' : list (string * usedImport) -> list (string * usedImport))
    (importsMap : gmap string usedImport) :
  (forall entries, mapRange entries ≡ₚ entries) ->
  (forall entries, mapRange' entries ≡ₚ entries) ->
  length (usedImports mapRange importsMap) <= 1 ->
  usedImports mapRange' importsMap = usedImports mapRange importsMap.
Proof.
  intros Hperm Hperm' Hlen. symmetry. apply Permutation_short; [|done].
  unfold usedImports. apply Permutation_map, filter_Permutation.
  by rewrite Hperm, Hperm'.
Qed.

(** A panic while one file is processed ends the run: the files after it
    are not looked at. *)
Lemma forRange_panics_at {A S : Type} (xs ys : list A) (x : A)
    (body : A -> S -> outcome S) (acc acc' : S) (msg : string) :
  forRange xs body acc = Return acc' -> body x acc' = Panic msg ->
  forRange (xs ++ x :: ys) body acc = Panic msg.
Proof.
  intros Hxs Hx. rewrite forRange_app, Hxs. simpl. by rewrite Hx.
Qed.

(** ** The listing of the files *)

Lemma Walk_Dir {S : Type} (root name : string) (readErr : error)
    (entries : list os.Entry)
    (walkFn : string -> os.Entry -> error -> S -> S * error) (acc : S) :
  filepath_Walk root (os.Dir name readErr entries) walkFn acc =
  let '(acc', err1) := walkFn root (os.Dir name readErr entries) readErr acc in
  match readErr, err1 with
  | None, None => walkEntries root walkFn entries acc'
  | _, _ => (acc', err1)
  end.
Proof.
  cbn [filepath_Walk].
  destruct (walkFn root (os.Dir name readErr entries) readErr acc) as [acc' err1].
  destruct readErr, err1; try reflexivity.
  revert acc'. induction entries as [|entry rest IH]; intros acc'; [reflexivity|].
  cbn [walkEntries].
  destruct (filepath_Walk (filepath.Join [root; os.Name entry]) entry walkFn acc')
    as [acc0 [e|]]; [reflexivity|apply IH].
Qed.

(** What the walk of [listGoFiles] adds to [files], and with what error. *)
Lemma Walk_collects (info : os.Entry) (root : string) (files : list string) :
  exists found err,
    filepath_Walk root info collectGoFile files = (files ++ found, err) /\
    found `prefix_of` goFiles root info /\
    if readable info then err = None /\ found = goFiles root info
    else err <> None.
Proof.
  revert root files. induction info as [name|name err|name readErr entries IH]
    using Entry_ind; intros root files.
  - unfold goFiles. cbn [filepath_Walk collectGoFile os.IsDir os.Name negb andb
                         plainFiles readable].
    rewrite filter_cons. cbn [snd]. rewrite filter_nil.
    destruct (strings.HasSuffix name ".go") eqn:Hs.
    + rewrite decide_True by done. by exists [root], None.
    + rewrite decide_False by (by intros ?). exists [], None.
      by rewrite app_nil_r.
  - exists [], (Some err). cbn [filepath_Walk collectGoFile readable].
    rewrite app_nil_r. split_and!; [done|apply prefix_nil|done].
  - rewrite Walk_Dir. cbn [readable]. destruct readErr as [e|].
    { exists [], (Some e). cbn [collectGoFile]. rewrite app_nil_r.
      split_and!; [done|apply prefix_nil|done]. }
    cbn [collectGoFile os.IsDir negb andb].
    unfold goFiles. cbn [plainFiles]. fold (goFiles root).
    revert files. induction IH as [|entry rest Hentry _ IHrest]; intros files.
    { exists [], None. cbn. by rewrite app_nil_r. }
    cbn [walkEntries flat_map forallb].
    destruct (Hentry (filepath.Join [root; os.Name entry]) files)
      as (found & err & Hwalk & Hprefix & Hread).
    rewrite Hwalk. rewrite filter_app, map_app.
    fold (goFiles (filepath.Join [root; os.Name entry]) entry).
    destruct (readable entry).
    + destruct Hread as [-> ->].
      destruct (IHrest (files ++ goFiles (filepath.Join [root; os.Name entry]) entry))
        as (found' & err' & Hwalk' & Hprefix' & Hread').
      rewrite Hwalk'. eexists (_ ++ found'), err'. rewrite app_assoc.
      split_and!; [done|by apply prefix_app|].
      cbn [andb]. destruct (forallb readable rest); [|done].
      destruct Hread' as [-> ->]. done.
    + destruct err as [e|]; [|done]. exists found, (Some e).
      split_and!; [done|by apply prefix_app_r|done].
Qed.

(** X1.  When everything below the root can be read, [listGoFiles] returns
    no error and the paths of exactly the files that are not directories
    and whose name ends in [.go], in the order of the walk; a directory
    is never listed, whatever its name. *)
Theorem listGoFiles_lists_go_files (root : string) (tree : os.Entry) :
  readable tree = true -> listGoFiles root tree = (goFiles root tree, None).
Proof.
  intros Hr. destruct (Walk_collects tree root []) as (found & err & Hw & _ & Hread).
  rewrite Hr in Hread. destruct Hread as [-> ->]. exact Hw.
Qed.

Lemma listGoFiles_lists_go_files_witness :
  readable sampleTree = true /\
  listGoFiles "/w" sampleTree
  = (["/w/example/example_v1.go"; "/w/main.go"; "/w/old.go/x.go"], None).
Proof.
  split; [reflexivity|].
  apply (listGoFiles_lists_go_files "/w" sampleTree). reflexivity.
Defined.

Lemma firstError_Dir (name : string) (entries : list os.Entry) :
  firstError (os.Dir name None entries) = firstErrorIn entries.
Proof.
  cbn [firstError]. induction entries as [|entry rest IH]; [reflexivity|].
  cbn [firstErrorIn]. destruct (firstError entry); [reflexivity|apply IH].
Qed.

(** The error the walk of [listGoFiles] returns is the one it comes to
    first, as the system gave it. *)
Lemma Walk_error (info : os.Entry) (root : string) (files : list string) :
  (filepath_Walk root info collectGoFile files).2 = firstError info.
Proof.
  revert root files. induction info as [name|name err|name readErr entries IH]
    using Entry_ind; intros root files.
  { cbn [filepath_Walk collectGoFile firstError].
    by destruct (negb (os.IsDir (os.NotDir name)) &&
                 strings.HasSuffix (os.Name (os.NotDir name)) ".go"). }
  { done. }
  rewrite Walk_Dir. destruct readErr as [e|]; [done|].
  rewrite firstError_Dir. cbn [collectGoFile os.IsDir negb andb].
  revert files. induction IH as [|entry rest Hentry _ IHrest]; intros files; [done|].
  cbn [walkEntries firstErrorIn].
  specialize (Hentry (filepath.Join [root; os.Name entry]) files).
  destruct (filepath_Walk (filepath.Join [root; os.Name entry]) entry collectGoFile
              files) as [files' err].
  cbn [snd] in Hentry. rewrite <- Hentry. destruct err as [e|]; [done|apply IHrest].
Qed.

(** X2.  When something below the root cannot be read, [listGoFiles]
    returns the error of the first entry the walk fails on, as [Lstat] or
    the reading of the directory gave it, together with the files found
    before it, and [main] panics with that error before any file is
    processed. *)
Theorem listGoFiles_error_stops_the_run
    (parser_ParseFile : string -> FS -> ast.File + string)
    (format_Source : string -> string + string)
    (mapRange : list (string * usedImport) -> list (string * usedImport))
    (writeError : string -> error)
    (root : string) (tree : os.Entry) (fs : FS) :
  readable tree = false ->
  exists files err,
    firstError tree = Some err /\
    listGoFiles root tree = (files, Some err) /\
    files `prefix_of` goFiles root tree /\
    mainFrom parser_ParseFile format_Source mapRange writeError (inl root) tree fs
    = Panic err.
Proof.
  intros Hr. destruct (Walk_collects tree root []) as (found & err & Hw & Hp & Hread).
  pose proof (Walk_error tree root []) as Herr. rewrite Hw in Herr. cbn [snd] in Herr.
  rewrite Hr in Hread. destruct err as [e|]; [|done].
  exists found, e. unfold mainFrom, listGoFiles. by rewrite Hw.
Qed.

Lemma listGoFiles_error_stops_the_run_witness :
  readable brokenTree = false /\
  firstError brokenTree = Some "open /w/locked: permission denied" /\
  listGoFiles "/w" brokenTree
    = (["/w/a.go"], Some "open /w/locked: permission denied") /\
  exists files err,
    firstError brokenTree = Some err /\
    listGoFiles "/w" brokenTree = (files, Some err) /\
    files `prefix_of` goFiles "/w" brokenTree /\
    mainFrom (parsed exampleFile) formatAsIs rangeAsListed writable (inl "/w")
      brokenTree ∅ = Panic err.
Proof.
  split; [reflexivity|]. split; [reflexivity|]. split; [reflexivity|].
  apply (listGoFiles_error_stops_the_run (parsed exampleFile) formatAsIs rangeAsListed
           writable "/w" brokenTree ∅). reflexivity.
Defined.

(** ** More on the scanner *)

Lemma flat_map_const {A B : Type} (l : list B) (xs : list A) :
  flat_map (fun _ => l) xs = concat (replicate (length xs) l).
Proof. induction xs as [|x xs IH]; [done|]. simpl. by rewrite IH. Qed.

Lemma lastEligible_Some (ns : list ast.Node) (genDecl : ast.GenDecl) :
  lastEligible ns = Some genDecl ->
  ast.GenDeclNode genDecl ∈ ns /\ eligible genDecl = true.
Proof.
  induction ns as [|n rest IH]; [done|]. cbn [lastEligible].
  destruct (lastEligible rest) as [g|].
  - intros [= ->]. destruct (IH eq_refl) as [Hin He].
    split; [by apply list_elem_of_further|done].
  - destruct n as [|g|]; try done. destruct (eligible g) eqn:He; [|done].
    intros [= ->]. split; [apply list_elem_of_here|done].
Qed.

Lemma structSpecs_omap (specs : list ast.Spec) :
  structSpecs specs = omap structSpecOf specs.
Proof.
  induction specs as [|spec rest IH]; [done|].
  destruct spec as [i|names|ts]; cbn [structSpecs omap list_omap structSpecOf];
    [done|done|].
  destruct (ast.SpecType ts); by rewrite IH.
Qed.

Lemma structSpecs_elem (specs : list ast.Spec) (s : ast.TypeSpec) :
  s ∈ structSpecs specs <->
  ast.ATypeSpec s ∈ specs /\ exists fields, ast.SpecType s = ast.StructType fields.
Proof.
  rewrite structSpecs_omap, list_elem_of_omap. split.
  - intros (spec & Hin & Hs). destruct spec as [i|names|ts]; try done.
    cbn [structSpecOf] in Hs. destruct (ast.SpecType ts) eqn:Hts; try done.
    injection Hs as ->. split; [done|by eauto].
  - intros (Hin & fields & Hf). exists (ast.ATypeSpec s). split; [done|].
    cbn [structSpecOf]. by rewrite Hf.
Qed.

Lemma forRange_invariant {A S : Type} (P : S -> Prop) (xs : list A)
    (body : A -> S -> outcome S) (acc acc' : S) :
  P acc ->
  (forall x a a', x ∈ xs -> P a -> body x a = Return a' -> P a') ->
  forRange xs body acc = Return acc' -> P acc'.
Proof.
  revert acc. induction xs as [|x xs IH]; intros acc Hacc Hstep Hrun.
  { by injection Hrun as <-. }
  cbn [forRange] in Hrun. destruct (body x acc) as [a|msg] eqn:Hx; [|done].
  apply (IH a); [|by intros; eapply Hstep; [apply list_elem_of_further|..]|done].
  eapply Hstep; [apply list_elem_of_here|done..].
Qed.

(** One node of the walk either leaves the captured variables alone or
    replaces them by what a documented type declaration gives. *)
Lemma inspectNode_step (node : ast.File) (n : ast.Node)
    (captured captured' : list ast.TypeSpec * list string) :
  inspectNode node n captured = Return captured' ->
  captured' = captured \/
  exists genDecl, n = ast.GenDeclNode genDecl /\ eligible genDecl = true /\
    captured'.1 = groupStructs genDecl.
Proof.
  destruct n as [|genDecl|]; try by (intros [= <-]; left).
  unfold inspectNode.
  destruct (ast.Tok genDecl) eqn:HTok; try by (intros [= <-]; left).
  destruct (ast.Doc genDecl) as [doc|] eqn:HDoc; try by (intros [= <-]; left).
  destruct (forRange (ast.Imports node) _ []) as [imports|msg]; [|done].
  cbn [mbind outcome_bind]. rewrite comments_loop.
  cbn [mbind outcome_bind mret outcome_ret].
  intros [= <-]. right. exists genDecl.
  unfold eligible, groupStructs, markerLines. by rewrite HTok, HDoc.
Qed.

Lemma groupStructs_elem (genDecl : ast.GenDecl) (s : ast.TypeSpec) :
  eligible genDecl = true -> s ∈ groupStructs genDecl ->
  hasMarker genDecl = true /\ s ∈ structSpecs (ast.Specs genDecl).
Proof.
  intros He Hs. unfold groupStructs in Hs.
  apply list_elem_of_In, in_flat_map in Hs as (c & Hc & Hs).
  split; [|by apply list_elem_of_In]. unfold hasMarker. rewrite He. simpl.
  apply bool_decide_eq_true. intros Hnil. rewrite Hnil in Hc. destruct Hc.
Qed.

(** X3.  Every struct the scanner returns is a struct type spec of a type
    declaration of the unit whose doc comment has a line beginning with
    [//gen:setters]; so the type assertion at the head of the loop of
    [generateTargetSetter] never fails on a scanned unit. *)
Theorem scanned_structs_come_from_marked_groups
    (parser_ParseFile : string -> FS -> ast.File + string)
    (filename : string) (fs : FS) (node : ast.File) (t : targetStructs)
    (s : ast.TypeSpec) :
  parser_ParseFile filename fs = inl node ->
  searchTargetStructs parser_ParseFile filename fs = Return (inl t) ->
  s ∈ structs t ->
  (exists fields, ast.SpecType s = ast.StructType fields) /\
  exists genDecl,
    ast.GenDeclNode genDecl ∈ ast.nodes node /\
    hasMarker genDecl = true /\
    ast.ATypeSpec s ∈ ast.Specs genDecl.
Proof.
  intros Hparse Hscan Hs. unfold searchTargetStructs in Hscan. rewrite Hparse in Hscan.
  unfold ast.Inspect in Hscan.
  destruct (forRange (ast.nodes node) (inspectNode node) ([], [])) as [captured|msg]
    eqn:Hwalk; [|done].
  cbn [mbind outcome_bind mret outcome_ret] in Hscan. injection Hscan as <-.
  cbn [structs] in Hs.
  assert (Hinv : captured.1 = [] \/
                 exists genDecl, ast.GenDeclNode genDecl ∈ ast.nodes node /\
                   eligible genDecl = true /\ captured.1 = groupStructs genDecl).
  { apply (forRange_invariant
             (fun c => c.1 = [] \/
                exists genDecl, ast.GenDeclNode genDecl ∈ ast.nodes node /\
                  eligible genDecl = true /\ c.1 = groupStructs genDecl)
             (ast.nodes node) (inspectNode node) ([], []) captured);
      [by left| |exact Hwalk].
    intros n a a' Hn Ha Hstep.
    destruct (inspectNode_step _ _ _ _ Hstep) as [->|(g & -> & He & Hg)]; [done|].
    right. by exists g. }
  destruct Hinv as [Hnil|(g & Hin & He & Hg)].
  { rewrite Hnil in Hs. by apply elem_of_nil in Hs. }
  rewrite Hg in Hs. destruct (groupStructs_elem _ _ He Hs) as [Hm Hspec].
  apply structSpecs_elem in Hspec as [Hspec Hstruct].
  split; [done|]. by exists g.
Qed.

Lemma scanned_structs_come_from_marked_groups_witness :
  parsed exampleFile "/w/example/example_v1.go" ∅ = inl exampleFile /\
  searchTargetStructs (parsed exampleFile) "/w/example/example_v1.go" ∅
    = Return (inl exampleUnit) /\
  exampleStruct ∈ structs exampleUnit /\
  (exists fields, ast.SpecType exampleStruct = ast.StructType fields) /\
  exists genDecl,
    ast.GenDeclNode genDecl ∈ ast.nodes exampleFile /\
    hasMarker genDecl = true /\
    ast.ATypeSpec exampleStruct ∈ ast.Specs genDecl.
Proof.
  assert (H2 : searchTargetStructs (parsed exampleFile) "/w/example/example_v1.go" ∅
               = Return (inl exampleUnit)) by (by vm_compute).
  assert (H3 : exampleStruct ∈ structs exampleUnit) by apply list_elem_of_here.
  split; [reflexivity|]. split; [exact H2|]. split; [exact H3|].
  apply (scanned_structs_come_from_marked_groups (parsed exampleFile)
           "/w/example/example_v1.go" ∅ exampleFile exampleUnit exampleStruct
           eq_refl H2 H3).
Defined.

(** X4.  The unit the scanner returns holds what the last documented type
    declaration of the walk gives and nothing of the earlier ones: each of
    its struct specs once for every marker line of its doc comment, none
    when that comment has no marker line. *)
Theorem scan_returns_last_documented_group
    (parser_ParseFile : string -> FS -> ast.File + string)
    (filename : string) (fs : FS) (node : ast.File) (genDecl : ast.GenDecl) :
  parser_ParseFile filename fs = inl node ->
  wellQuoted node = true ->
  lastEligible (ast.nodes node) = Some genDecl ->
  searchTargetStructs parser_ParseFile filename fs =
  Return (inl {|
    path := filepath.Dir filename;
    filename := filepath.Base filename;
    packageName := ast.Name node;
    imports := importPaths node;
    structs := concat (replicate (length (markerLines genDecl))
                                 (structSpecs (ast.Specs genDecl))) |}).
Proof.
  intros Hparse Hq Hlast.
  rewrite (searchTargetStructs_returns _ _ _ _ Hparse Hq), Hlast.
  unfold groupStructs. by rewrite flat_map_const.
Qed.

Lemma scan_returns_last_documented_group_witness :
  parsed markedThenPlain "/w/rows.go" ∅ = inl markedThenPlain /\
  wellQuoted markedThenPlain = true /\
  lastEligible (ast.nodes markedThenPlain)
    = Some (typeGroup (docLines ["// B is a row."]) [structB]) /\
  searchTargetStructs (parsed markedThenPlain) "/w/rows.go" ∅ =
  Return (inl {| path := "/w"; filename := "rows.go"; packageName := "p";
                 imports := ["time"]; structs := [] |}).
Proof.
  split; [reflexivity|]. split; [reflexivity|]. split; [reflexivity|].
  apply (scan_returns_last_documented_group (parsed markedThenPlain) "/w/rows.go" ∅
           markedThenPlain (typeGroup (docLines ["// B is a row."]) [structB]));
    reflexivity.
Defined.

(** ** Runs *)

Section Runs.

Variable parser_ParseFile : string -> FS -> ast.File + string.
Variable format_Source : string -> string + string.
Variable mapRange : list (string * usedImport) -> list (string * usedImport).
Variable writeError : string -> error.

Local Abbreviation generate := (generateTargetSetter format_Source mapRange writeError).
Local Abbreviation process :=
  (processFile parser_ParseFile format_Source mapRange writeError).

Lemma generateTargetSetter_frame (t : targetStructs) (targets : list string)
    (fs fs' : FS) (err : error) :
  generate t targets fs = Return (err, fs') ->
  (forall p, p <> outputPath t -> fs' !! p = fs !! p) /\
  (err = None -> generate t targets fs' = Return (None, fs')).
Proof.
  unfold generateTargetSetter.
  destruct (synthesize t targets) as [st|msg]; [|done]. cbn [mbind outcome_bind].
  destruct (length st.2 =? 0)%nat; [by intros [= <- <-]|].
  destruct (format_Source _) as [formatted|e]; [|by intros [= <- <-]].
  unfold os_WriteFile. destruct (writeError (outputPath t)) as [e|];
    [by intros [= <- <-]|].
  intros [= <- <-]. split; [|by rewrite insert_insert_eq].
  intros p Hp. by rewrite lookup_insert_ne.
Qed.

Lemma scanned_names (file : string) (fs : FS) (t : targetStructs) :
  searchTargetStructs parser_ParseFile file fs = Return (inl t) ->
  outputPath t = companion file.
Proof.
  unfold searchTargetStructs. destruct (parser_ParseFile file fs) as [node|e]; [|done].
  destruct (ast.Inspect node (inspectNode node) ([], [])) as [captured|msg]; [|done].
  by intros [= <-].
Qed.

Lemma processFile_step (targets : list string) (file : string) (fs fs' : FS)
    (log log' : list string) :
  process targets file (fs, log) = Return (fs', log') ->
  (forall p, p <> companion file -> fs' !! p = fs !! p) /\
  (log' = log \/ exists err, log' = log ++ [err]).
Proof.
  unfold processFile.
  destruct (searchTargetStructs parser_ParseFile file fs) as [[t|e]|msg] eqn:Hscan;
    cbn [mbind outcome_bind]; [|by intros [= <- <-]; eauto|done].
  destruct (generate t targets fs) as [[err fs'']|msg] eqn:Hgen;
    cbn [mbind outcome_bind fst snd]; [|done].
  destruct (generateTargetSetter_frame _ _ _ _ _ Hgen) as (Hframe & _).
  rewrite (scanned_names _ _ _ Hscan) in Hframe.
  destruct err as [e|]; intros [= <- <-]; (split; [done|]); [right|by left].
  by exists e.
Qed.

Lemma files_loop (targets : list string) (files : list string) (fs fs' : FS)
    (log log' : list string) :
  forRange files (process targets) (fs, log) = Return (fs', log') ->
  (forall p, (forall file, file ∈ files -> p <> companion file) -> fs' !! p = fs !! p) /\
  exists errs, log' = log ++ errs /\ length errs <= length files.
Proof.
  revert fs log. induction files as [|file rest IH]; intros fs log Hrun.
  { injection Hrun as <- <-. split; [done|]. exists []. by rewrite app_nil_r. }
  cbn [forRange] in Hrun.
  destruct (process targets file (fs, log)) as [[fs1 log1]|msg] eqn:Hstep; [|done].
  cbn [mbind outcome_bind] in Hrun.
  destruct (processFile_step _ _ _ _ _ _ Hstep) as [Hframe Hlog].
  destruct (IH _ _ Hrun) as (Hframe' & errs & -> & Hlen). split.
  - intros p Hp. rewrite Hframe'.
    + apply Hframe, Hp, list_elem_of_here.
    + intros f Hf. by apply Hp, list_elem_of_further.
  - destruct Hlog as [->|(e & ->)].
    + exists errs. split; [done|]. simpl. lia.
    + exists (e :: errs). rewrite <- app_assoc. split; [done|]. simpl. lia.
Qed.

(** X5.  A unit in which no documented type declaration has a marker line
    is passed over: no file is written and nothing is logged. *)
Theorem unit_without_marker_is_passed_over (targets : list string) (file : string)
    (fs : FS) (log : list string) (node : ast.File) :
  parser_ParseFile file fs = inl node ->
  wellQuoted node = true ->
  unmarked node = true ->
  process targets file (fs, log) = Return (fs, log).
Proof.
  intros Hparse Hq Hnone. unfold processFile.
  unfold unmarked in Hnone. rewrite forallb_forall in Hnone.
  rewrite (searchTargetStructs_returns _ _ _ _ Hparse Hq). cbn [mbind outcome_bind].
  assert (Hstructs : match lastEligible (ast.nodes node) with
                     | Some genDecl => groupStructs genDecl
                     | None => []
                     end = []).
  { destruct (lastEligible (ast.nodes node)) as [g|] eqn:Hlast; [|done].
    apply lastEligible_Some in Hlast as [Hin He].
    apply list_elem_of_In, Hnone, negb_true_iff in Hin. unfold hasMarker in Hin.
    rewrite He in Hin. simpl in Hin. apply bool_decide_eq_false in Hin.
    rename Hin into Hnone'.
    unfold groupStructs. destruct (markerLines g); [done|]. by destruct Hnone'. }
  rewrite Hstructs. unfold generateTargetSetter, synthesize. by cbn.
Qed.

(** X6.  Files that do not parse are logged, one error each and in order,
    and skipped: the run goes on to the end, writes nothing for them and
    still reports success. *)
Theorem unparsed_files_are_logged_and_skipped (files : list string) (fs : FS)
    (errorOf : string -> string) :
  (forall file, file ∈ files -> parser_ParseFile file fs = inr (errorOf file)) ->
  main parser_ParseFile format_Source mapRange writeError files fs
  = Return (fs, map errorOf files ++ ["Successfully generated"]).
Proof.
  intros Hfail. unfold main.
  assert (Hloop : forall log,
            forRange files (process targetFields) (fs, log)
            = Return (fs, log ++ map errorOf files)).
  { induction files as [|file rest IH]; intros log.
    { simpl. by rewrite app_nil_r. }
    assert (Hstep : process targetFields file (fs, log)
                    = Return (fs, log ++ [errorOf file])).
    { unfold processFile, searchTargetStructs.
      by rewrite (Hfail file) by apply list_elem_of_here. }
    cbn [forRange]. rewrite Hstep. cbn [mbind outcome_bind].
    rewrite IH; [by rewrite <- app_assoc|].
    intros f Hf. by apply Hfail, list_elem_of_further. }
  by rewrite Hloop.
Qed.

(** X7.  Whatever [generateTargetSetter] returns, error or not, it has
    changed no file other than the companion; and after it has returned
    without error, run again on what it left, with the same order of the
    map range, it returns without error and leaves the same: the write
    replaces the companion and adds nothing to it. *)
Theorem generateTargetSetter_writes_only_the_companion (t : targetStructs)
    (targets : list string) (fs fs' : FS) (err : error) :
  generate t targets fs = Return (err, fs') ->
  (forall p, p <> outputPath t -> fs' !! p = fs !! p) /\
  (err = None -> generate t targets fs' = Return (None, fs')).
Proof. apply generateTargetSetter_frame. Qed.

(** X8.  A run that ends has changed, of all the files, at most the
    companions of the files it was given. *)
Theorem main_changes_only_companions (files : list string) (fs fs' : FS)
    (log : list string) (p : string) :
  main parser_ParseFile format_Source mapRange writeError files fs = Return (fs', log) ->
  (forall file, file ∈ files -> p <> companion file) ->
  fs' !! p = fs !! p.
Proof.
  unfold main. intros Hrun Hp.
  destruct (forRange files (process targetFields) (fs, [])) as [[fs1 log1]|msg]
    eqn:Hloop; [|done].
  injection Hrun as <- _. destruct (files_loop _ _ _ _ _ _ Hloop) as [Hframe _].
  by apply Hframe.
Qed.

(** X9.  The log of a run that ends is at most one error for each file,
    followed by the line [Successfully generated], errors or not. *)
Theorem main_log_ends_with_success (files : list string) (fs fs' : FS)
    (log : list string) :
  main parser_ParseFile format_Source mapRange writeError files fs = Return (fs', log) ->
  exists errs, log = errs ++ ["Successfully generated"] /\ length errs <= length files.
Proof.
  unfold main. intros Hrun.
  destruct (forRange files (process targetFields) (fs, [])) as [[fs1 log1]|msg]
    eqn:Hloop; [|done].
  injection Hrun as _ <-. destruct (files_loop _ _ _ _ _ _ Hloop) as (_ & errs & -> & Hlen).
  by exists errs.
Qed.

End Runs.

Lemma unit_without_marker_is_passed_over_witness :
  parsed unmarkedFile "/w/a.go" {[ "/w/a.go" := "package p" ]} = inl unmarkedFile /\
  wellQuoted unmarkedFile = true /\
  unmarked unmarkedFile = true /\
  processFile (parsed unmarkedFile) formatAsIs rangeAsListed writable targetFields
    "/w/a.go" ({[ "/w/a.go" := "package p" ]}, [])
  = Return ({[ "/w/a.go" := "package p" ]}, []).
Proof.
  split; [reflexivity|]. split; [reflexivity|]. split; [reflexivity|].
  apply (unit_without_marker_is_passed_over (parsed unmarkedFile) formatAsIs
           rangeAsListed writable targetFields "/w/a.go"
           {[ "/w/a.go" := "package p" ]} [] unmarkedFile); reflexivity.
Defined.

Lemma unparsed_files_are_logged_and_skipped_witness :
  (forall file, file ∈ ["/w/a.go"; "/w/b.go"] ->
     unparsable file ∅ = inr (file +:+ ":1:1: expected 'package', found 'EOF'")) /\
  main unparsable formatAsIs rangeAsListed writable ["/w/a.go"; "/w/b.go"] ∅
  = Return (∅, ["/w/a.go:1:1: expected 'package', found 'EOF'";
                "/w/b.go:1:1: expected 'package', found 'EOF'";
                "Successfully generated"]).
Proof.
  split; [by intros file _|].
  apply (unparsed_files_are_logged_and_skipped unparsable formatAsIs rangeAsListed
           writable ["/w/a.go"; "/w/b.go"] ∅
           (fun file => file +:+ ":1:1: expected 'package', found 'EOF'")).
  by intros file _.
Defined.

Lemma generateTargetSetter_writes_only_the_companion_witness :
  generateTargetSetter formatAsIs rangeAsListed writable exampleUnit targetFields
    exampleDisk = Return (None, exampleDiskAfter) /\
  (forall p, p <> outputPath exampleUnit -> exampleDiskAfter !! p = exampleDisk !! p) /\
  ((None : error) = None ->
   generateTargetSetter formatAsIs rangeAsListed writable exampleUnit targetFields
     exampleDiskAfter = Return (None, exampleDiskAfter)).
Proof.
  assert (Hrun :
    generateTargetSetter formatAsIs rangeAsListed writable exampleUnit targetFields
      exampleDisk = Return (None, exampleDiskAfter)) by (by vm_compute).
  split; [exact Hrun|].
  apply (generateTargetSetter_writes_only_the_companion formatAsIs rangeAsListed
           writable exampleUnit targetFields exampleDisk exampleDiskAfter None Hrun).
Defined.

Lemma main_changes_only_companions_witness :
  main (parsed exampleFile) formatAsIs rangeAsListed writable
    ["/w/example/example_v1.go"] exampleDisk
  = Return (exampleDiskAfter, ["Successfully generated"]) /\
  (forall file, file ∈ ["/w/example/example_v1.go"] ->
     "/w/example/example_v1.go" <> companion file) /\
  exampleDiskAfter !! "/w/example/example_v1.go"
  = exampleDisk !! "/w/example/example_v1.go".
Proof.
  assert (Hrun :
    main (parsed exampleFile) formatAsIs rangeAsListed writable
      ["/w/example/example_v1.go"] exampleDisk
    = Return (exampleDiskAfter, ["Successfully generated"])) by (by vm_compute).
  assert (Hne : forall file, file ∈ ["/w/example/example_v1.go"] ->
                  "/w/example/example_v1.go" <> companion file).
  { intros file ->%list_elem_of_singleton. by vm_compute. }
  split; [exact Hrun|]. split; [exact Hne|].
  apply (main_changes_only_companions (parsed exampleFile) formatAsIs rangeAsListed
           writable ["/w/example/example_v1.go"] exampleDisk exampleDiskAfter
           ["Successfully generated"] "/w/example/example_v1.go" Hrun Hne).
Defined.

Lemma main_log_ends_with_success_witness :
  main (parsed exampleFile) formatFails rangeAsListed writable
    ["/w/example/example_v1.go"] exampleDisk
  = Return (exampleDisk, ["1:1: expected declaration"; "Successfully generated"]) /\
  exists errs,
    ["1:1: expected declaration"; "Successfully generated"]
    = errs ++ ["Successfully generated"] /\
    length errs <= length ["/w/example/example_v1.go"].
Proof.
  assert (Hrun :
    main (parsed exampleFile) formatFails rangeAsListed writable
      ["/w/example/example_v1.go"] exampleDisk
    = Return (exampleDisk, ["1:1: expected declaration"; "Successfully generated"]))
    by (by vm_compute).
  split; [exact Hrun|].
  apply (main_log_ends_with_success (parsed exampleFile) formatFails rangeAsListed
           writable ["/w/example/example_v1.go"] exampleDisk exampleDisk
           ["1:1: expected declaration"; "Successfully generated"] Hrun).
Defined.

(** ** Names, targets and printed types *)

Lemma length_substring_0 (n : nat) (s : string) :
  n <= String.length s -> String.length (String.substring 0 n s) = n.
Proof.
  revert n. induction s as [|c s IH]; intros n Hn; simpl in Hn.
  - by replace n with 0 by lia.
  - destruct n as [|n]; [done|]. simpl. rewrite IH; [done|lia].
Qed.

Lemma HasSuffix_append (a suffix : string) :
  strings.HasSuffix (a +:+ suffix) suffix = true.
Proof.
  unfold strings.HasSuffix. rewrite length_append.
  replace (String.length a + String.length suffix - String.length suffix)
    with (String.length a) by lia.
  rewrite substring_drop, substring_whole, String.eqb_refl, andb_true_r.
  apply Nat.leb_le. lia.
Qed.

(** X10.  The name of the companion is never the name of the file it is
    generated from, and it ends in [.go] itself: the generator does not
    write over its input, and the next listing takes the companion
    in. *)
Theorem companion_name_differs_and_ends_in_go (name : string) :
  strings.TrimSuffix name ".go" +:+ "_setters.go" <> name /\
  strings.HasSuffix (strings.TrimSuffix name ".go" +:+ "_setters.go") ".go" = true.
Proof.
  split.
  - intros Heq. apply (f_equal String.length) in Heq.
    rewrite length_append in Heq. unfold strings.TrimSuffix, strings.HasSuffix in Heq.
    destruct (String.length ".go" <=? String.length name)%nat eqn:Hlen.
    + apply Nat.leb_le in Hlen.
      destruct (String.eqb _ ".go"); cbn [andb] in Heq.
      * rewrite length_substring_0 in Heq by lia. simpl in Heq, Hlen. lia.
      * simpl in Heq. lia.
    + cbn [andb] in Heq. simpl in Heq. lia.
  - change "_setters.go" with ("_setters" +:+ ".go").
    rewrite <- append_assoc. apply HasSuffix_append.
Qed.

(** X11.  [containsTargetField] answers [true] exactly for the names that
    occur in the targets, compared byte for byte. *)
Theorem containsTargetField_is_membership (f : string) (targets : list string) :
  containsTargetField f targets = true <-> f ∈ targets.
Proof. apply containsTargetField_elem. Qed.

(** X12.  The printer returns a text exactly on the type expressions all of
    whose printed nodes are of supported kinds, and the text is then the
    one of the rules; on every other expression it panics. *)
Theorem printer_returns_exactly_on_supported (expr : ast.Expr) (text : string) :
  getFiledTypeString expr = Return text <->
  supported expr = true /\ text = printer expr.
Proof.
  split.
  - intros Hret. destruct (supported expr) eqn:Hs.
    + rewrite (printer_returns _ Hs) in Hret. by injection Hret as <-.
    + destruct (printer_panics_inside _ Hs) as (n & _ & _ & Hp). congruence.
  - intros [Hs ->]. by apply printer_returns.
Qed.

Lemma htmlSafe_append (a b : string) :
  htmlSafe (a +:+ b) = htmlSafe a && htmlSafe b.
Proof.
  induction a as [|c a IH]; [done|]. rewrite append_cons. cbn [htmlSafe].
  by destruct (htmlReplacement c).
Qed.

Lemma printer_safe (expr : ast.Expr) :
  identsSafe expr = true -> htmlSafe (printer expr) = true.
Proof.
  induction expr as
    [ | name | x IHx | x IHx sel | len _ elt IHelt | key IHkey value IHvalue
      | methods | dir value IHvalue | elt IHelt | | | | | | | ];
    cbn [identsSafe printer]; intros Hsafe; rewrite ?htmlSafe_append;
    repeat match goal with
           | H : _ && _ = true |- _ => apply andb_prop in H as [? ?]
           end;
    repeat match goal with
           | IH : ?a = true -> _, H : ?a = true |- _ => rewrite (IH H); clear IH
           end;
    by rewrite ?andb_true_r.
Qed.

(** X13.  A type whose identifiers have none of the bytes [html/template]
    escapes is printed into a text that has none either: the template puts
    the printed type into the setter as it is. *)
Theorem printed_type_is_not_escaped (expr : ast.Expr) (text : string) :
  getFiledTypeString expr = Return text ->
  identsSafe expr = true ->
  htmlEscaper text = text.
Proof.
  intros Hret Hsafe. destruct (supported expr) eqn:Hs.
  - rewrite (printer_returns _ Hs) in Hret. injection Hret as <-.
    by apply htmlEscaper_safe, printer_safe.
  - destruct (printer_panics_inside _ Hs) as (n & _ & _ & Hp). congruence.
Qed.

Lemma printed_type_is_not_escaped_witness :
  getFiledTypeString nestedType = Return "map[string][]chann *time.Time" /\
  identsSafe nestedType = true /\
  htmlEscaper "map[string][]chann *time.Time" = "map[string][]chann *time.Time".
Proof.
  split; [reflexivity|]. split; [reflexivity|].
  apply (printed_type_is_not_escaped nestedType "map[string][]chann *time.Time");
    reflexivity.
Defined.

(** X14.  The imports map holds, under every short name, the last import
    of the unit whose base is that name, not yet used; an earlier import
    with the same base is not in the map. *)
Theorem imports_map_keeps_last_of_each_base (imports : list string) (short : string) :
  newImportsMap imports !! short
  = (fun p => {| pkg := p; used := false |})
      <$> last (filter (fun imp => filepath.Base imp = short) imports).
Proof. apply newImportsMap_lookup. Qed.

(** X15.  Stripping the first and the last byte of an import literal gives
    back the path between its quotes, whatever the quotes; on a literal of
    fewer than two bytes the slice panics. *)
Theorem import_literal_is_unquoted :
  (forall (open close : ascii) (p : string),
     slice_1_to_len_minus_1 (String open (p +:+ String close ""))
     = Return p) /\
  slice_1_to_len_minus_1 "" = Panic "slice bounds out of range" /\
  (forall c, slice_1_to_len_minus_1 (String c "") = Panic "slice bounds out of range").
Proof.
  split_and!; [|done..]. intros q1 q2 p. unfold slice_1_to_len_minus_1.
  cbn [String.length]. rewrite length_append. cbn [String.length].
  replace (2 <=? S (String.length p + 1))%nat with true
    by (symmetry; apply Nat.leb_le; lia).
  replace (S (String.length p + 1) - 2) with (String.length p) by lia.
  cbn [String.substring]. by rewrite substring_take.
Qed.

(** ** Qualifiers and the import block *)

Lemma HasPrefix_dot (c : ascii) (s : string) :
  strings.HasPrefix (String c s) "." = Ascii.eqb "."%char c.
Proof.
  cbn [strings.HasPrefix]. rewrite HasPrefix_empty.
  by destruct (Ascii.eqb "."%char c).
Qed.

Lemma Contains_dot_after (a rest : string) :
  strings.Contains (a +:+ String "." rest) "." = true.
Proof.
  induction a as [|c a IH].
  - change ("" +:+ String "." rest) with (String "." rest).
    cbn [strings.Contains]. by rewrite HasPrefix_dot.
  - rewrite append_cons. cbn [strings.Contains]. by rewrite IH, orb_true_r.
Qed.

Lemma split_dot_plain (e cur rest : string) :
  strings.Contains e "." = false ->
  strings.split_from "." 0 cur (e +:+ rest) = strings.split_from "." 0 (cur +:+ e) rest.
Proof.
  revert cur. induction e as [|c e IH]; intros cur Hc.
  { by rewrite append_empty_r. }
  cbn [strings.Contains] in Hc. apply orb_false_elim in Hc as [Hhead Hrest].
  rewrite HasPrefix_dot in Hhead. rewrite append_cons.
  cbn [strings.split_from]. rewrite HasPrefix_dot, Hhead.
  by rewrite (IH _ Hrest), append_assoc.
Qed.

(** The qualifier of a printed [package.Member] is [package]. *)
Lemma qualifier_of_qualified (package member : string) :
  strings.Contains package "." = false ->
  qualifier (package +:+ "." +:+ member) = Some package.
Proof.
  intros Hp. unfold qualifier, strings.Split.
  change ("." +:+ member) with (String "." member).
  rewrite Contains_dot_after, (split_dot_plain _ _ _ Hp).
  cbn [strings.split_from]. by rewrite HasPrefix_dot.
Qed.

Lemma descriptor_of_target_field (targets : list string) (ss : list ast.TypeSpec)
    (s : ast.TypeSpec) (field : ast.Field) (name : string) (rest : list string) :
  s ∈ ss -> field ∈ structFields s -> ast.Names field = name :: rest ->
  containsTargetField name targets = true ->
  {| StructName := ast.SpecName s; FieldName := name;
     FieldType := printer (ast.Typ field) |} ∈ descriptors targets ss.
Proof.
  intros Hs Hf Hn Hc. unfold descriptors.
  apply list_elem_of_In, in_flat_map. exists s. split; [by apply list_elem_of_In|].
  apply in_map_iff. exists (name, ast.Typ field). split; [done|].
  apply list_elem_of_In, list_elem_of_omap. exists field. split; [done|].
  unfold targetField. by rewrite Hn, Hc.
Qed.

(** X16.  A target field whose type is [package.Member], with [package]
    the base of an import of the unit, keeps that import: the last import
    with that base is in the import block handed to the template. *)
Theorem qualified_field_keeps_its_import
    (mapRange : list (string * usedImport) -> list (string * usedImport))
    (t : targetStructs) (targets : list string)
    (s : ast.TypeSpec) (field : ast.Field) (name : string) (rest : list string)
    (package member p : string) :
  (forall entries, mapRange entries ≡ₚ entries) ->
  printable targets (structs t) = true ->
  s ∈ structs t -> field ∈ structFields s ->
  ast.Names field = name :: rest -> containsTargetField name targets = true ->
  ast.Typ field = ast.SelectorExpr (ast.Ident package) member ->
  strings.Contains package "." = false ->
  importNamed (imports t) package = Some p ->
  synthesize t targets
    = Return (markedBy (newImportsMap (imports t)) (descriptors targets (structs t)),
              descriptors targets (structs t)) /\
  p ∈ Imports (unitData mapRange t targets).
Proof.
  intros Hperm Hprint Hs Hf Hn Hc Htyp Hpkg Himp.
  split; [by apply synthesize_returns|].
  apply (usedImports_spec _ _ _ _ Hperm). exists package. split; [done|].
  apply Exists_exists. eexists. split.
  - by apply (descriptor_of_target_field targets (structs t) s field name rest).
  - cbn [FieldType]. rewrite Htyp. cbn [printer]. by apply qualifier_of_qualified.
Qed.

Lemma qualified_field_keeps_its_import_witness :
  (forall entries, rangeAsListed entries ≡ₚ entries) /\
  printable targetFields (structs exampleUnit) = true /\
  exampleStruct ∈ structs exampleUnit /\
  ast.mkField ["CreatedAt"] timeTime ∈ structFields exampleStruct /\
  ast.Names (ast.mkField ["CreatedAt"] timeTime) = "CreatedAt" :: [] /\
  containsTargetField "CreatedAt" targetFields = true /\
  ast.Typ (ast.mkField ["CreatedAt"] timeTime)
    = ast.SelectorExpr (ast.Ident "time") "Time" /\
  strings.Contains "time" "." = false /\
  importNamed (imports exampleUnit) "time" = Some "time" /\
  synthesize exampleUnit targetFields
    = Return (markedBy (newImportsMap (imports exampleUnit))
                (descriptors targetFields (structs exampleUnit)),
              descriptors targetFields (structs exampleUnit)) /\
  "time" ∈ Imports (unitData rangeAsListed exampleUnit targetFields).
Proof.
  assert (H1 : forall entries, rangeAsListed entries ≡ₚ entries) by done.
  assert (H3 : exampleStruct ∈ structs exampleUnit) by apply list_elem_of_here.
  assert (H4 : ast.mkField ["CreatedAt"] timeTime ∈ structFields exampleStruct)
    by apply list_elem_of_further, list_elem_of_here.
  split; [exact H1|]. split; [reflexivity|]. split; [exact H3|]. split; [exact H4|].
  split; [reflexivity|]. split; [reflexivity|]. split; [reflexivity|].
  split; [reflexivity|]. split; [reflexivity|].
  apply (qualified_field_keeps_its_import rangeAsListed exampleUnit targetFields
           exampleStruct (ast.mkField ["CreatedAt"] timeTime) "CreatedAt" []
           "time" "Time" "time" H1 eq_refl H3 H4 eq_refl eq_refl eq_refl eq_refl
           eq_refl).
Defined.

Lemma synthesize_Return_inv (t : targetStructs) (targets : list string)
    (st : gmap string usedImport * list setter) :
  synthesize t targets = Return st ->
  printable targets (structs t) = true /\
  st = (markedBy (newImportsMap (imports t)) (descriptors targets (structs t)),
        descriptors targets (structs t)).
Proof.
  intros Hsyn. destruct (printable targets (structs t)) eqn:Hp.
  - rewrite (synthesize_returns _ _ Hp) in Hsyn. by injection Hsyn as <-.
  - destruct (synthesize_panics _ _ Hp) as (s & d & msg & _ & _ & _ & Hpanic).
    congruence.
Qed.

Lemma importNamed_elem (imports : list string) (short p : string) :
  importNamed imports short = Some p -> p ∈ imports /\ filepath.Base p = short.
Proof.
  unfold importNamed. intros Hlast%last_Some_elem_of.
  apply list_elem_of_filter in Hlast as [Hb Hin]. done.
Qed.

Lemma map_is_fmap {A B : Type} (f : A -> B) (l : list A) : map f l = f <$> l.
Proof. induction l as [|x l IH]; [done|]. simpl. by rewrite IH. Qed.

(** An entry of the map sits under the base of its path. *)
Lemma entry_under_its_base (imports : list string) (setters : list setter)
    (short : string) (imp : usedImport) :
  markedBy (newImportsMap imports) setters !! short = Some imp ->
  filepath.Base (pkg imp) = short /\ pkg imp ∈ imports.
Proof.
  rewrite markedBy_lookup, newImportsMap_lookup.
  destruct (importNamed imports short) as [q|] eqn:Hq; [|done]. simpl.
  apply importNamed_elem in Hq as [Hin Hb].
  by case_decide; intros [= <-].
Qed.

(** X17.  Whatever the synthesis marks, the import block it leads to lists
    imports of the unit only, and none twice. *)
Theorem import_block_is_duplicate_free_part_of_imports
    (mapRange : list (string * usedImport) -> list (string * usedImport))
    (t : targetStructs) (targets : list string)
    (importsMap : gmap string usedImport) (setters : list setter) :
  (forall entries, mapRange entries ≡ₚ entries) ->
  synthesize t targets = Return (importsMap, setters) ->
  NoDup (usedImports mapRange importsMap) /\
  (forall p, p ∈ usedImports mapRange importsMap -> p ∈ imports t).
Proof.
  intros Hperm Hsyn. apply synthesize_Return_inv in Hsyn as [_ [= -> ->]]. split.
  - unfold usedImports. rewrite map_is_fmap. apply NoDup_fmap_2_strong.
    + intros [k1 i1] [k2 i2] H1 H2 Heq. cbn [snd] in Heq.
      apply list_elem_of_filter in H1 as [_ H1], H2 as [_ H2].
      rewrite Hperm in H1, H2. apply elem_of_map_to_list in H1, H2.
      destruct (entry_under_its_base _ _ _ _ H1) as [Hb1 _].
      destruct (entry_under_its_base _ _ _ _ H2) as [Hb2 _].
      assert (k1 = k2) as -> by congruence. f_equal. congruence.
    + apply NoDup_filter. rewrite Hperm. apply NoDup_map_to_list.
  - intros p (short & imp & Hl & _ & <-)%(usedImports_elem _ _ _ Hperm).
    by destruct (entry_under_its_base _ _ _ _ Hl).
Qed.

Lemma import_block_is_duplicate_free_part_of_imports_witness :
  (forall entries, rangeReversed entries ≡ₚ entries) /\
  synthesize twoImports targetFields
    = Return (markedBy (newImportsMap (imports twoImports)) rowSetters, rowSetters) /\
  NoDup (usedImports rangeReversed
           (markedBy (newImportsMap (imports twoImports)) rowSetters)) /\
  (forall p, p ∈ usedImports rangeReversed
                   (markedBy (newImportsMap (imports twoImports)) rowSetters) ->
             p ∈ imports twoImports).
Proof.
  assert (H1 : forall entries, rangeReversed entries ≡ₚ entries).
  { intros entries. symmetry. apply Permutation_rev. }
  assert (H2 : synthesize twoImports targetFields
               = Return (markedBy (newImportsMap (imports twoImports)) rowSetters,
                         rowSetters)) by (by vm_compute).
  split; [exact H1|]. split; [exact H2|].
  apply (import_block_is_duplicate_free_part_of_imports rangeReversed twoImports
           targetFields _ _ H1 H2).
Defined.

(** X18.  Every descriptor the synthesis returns stands for a field
    declaration of one of the unit's structs: it bears the name of that
    struct, the first name of the declaration, which is a target, and the
    text the printer returns for the declared type. *)
Theorem every_descriptor_has_its_field (t : targetStructs) (targets : list string)
    (importsMap : gmap string usedImport) (setters : list setter) (d : setter) :
  synthesize t targets = Return (importsMap, setters) ->
  d ∈ setters ->
  exists s field,
    s ∈ structs t /\ field ∈ structFields s /\
    StructName d = ast.SpecName s /\
    head (ast.Names field) = Some (FieldName d) /\
    FieldName d ∈ targets /\
    getFiledTypeString (ast.Typ field) = Return (FieldType d).
Proof.
  intros Hsyn Hd. apply synthesize_Return_inv in Hsyn as [Hprint [= _ ->]].
  unfold descriptors in Hd.
  apply list_elem_of_In, in_flat_map in Hd as (s & Hs & Hd).
  apply in_map_iff in Hd as ([name typ] & <- & Hdecl).
  pose proof Hdecl as Hsup.
  apply list_elem_of_In, list_elem_of_omap in Hdecl as (field & Hf & Htarget).
  unfold targetField in Htarget.
  destruct (ast.Names field) as [|first rest] eqn:Hn; [done|].
  destruct (containsTargetField first targets) eqn:Hc; [|done].
  injection Htarget as -> <-.
  unfold printable in Hprint. rewrite forallb_forall in Hprint.
  specialize (Hprint s Hs). rewrite forallb_forall in Hprint.
  specialize (Hprint _ Hsup). cbn [snd] in Hprint.
  exists s, field. split_and!; [by apply list_elem_of_In|done|done| | |].
  - by rewrite Hn.
  - by apply containsTargetField_elem.
  - by apply printer_returns.
Qed.

Lemma every_descriptor_has_its_field_witness :
  synthesize exampleUnit targetFields
    = Return (markedBy (newImportsMap (imports exampleUnit))
                (descriptors targetFields (structs exampleUnit)),
              descriptors targetFields (structs exampleUnit)) /\
  {| StructName := "example"; FieldName := "UpdatedAt"; FieldType := "time.Time" |}
    ∈ descriptors targetFields (structs exampleUnit) /\
  exists s field,
    s ∈ structs exampleUnit /\ field ∈ structFields s /\
    "example" = ast.SpecName s /\
    head (ast.Names field) = Some "UpdatedAt" /\
    "UpdatedAt" ∈ targetFields /\
    getFiledTypeString (ast.Typ field) = Return "time.Time".
Proof.
  assert (H1 : synthesize exampleUnit targetFields
    = Return (markedBy (newImportsMap (imports exampleUnit))
                (descriptors targetFields (structs exampleUnit)),
              descriptors targetFields (structs exampleUnit))) by (by vm_compute).
  assert (H2 : {| StructName := "example"; FieldName := "UpdatedAt";
                  FieldType := "time.Time" |}
               ∈ descriptors targetFields (structs exampleUnit))
    by apply list_elem_of_further, list_elem_of_here.
  split; [exact H1|]. split; [exact H2|].
  apply (every_descriptor_has_its_field exampleUnit targetFields _ _
           {| StructName := "example"; FieldName := "UpdatedAt";
              FieldType := "time.Time" |} H1 H2).
Defined.

(** X19.  A panic while one file is processed ends the run there: the
    files listed after it are not processed, whatever they hold. *)
Theorem panic_ends_the_run
    (parser_ParseFile : string -> FS -> ast.File + string)
    (format_Source : string -> string + string)
    (mapRange : list (string * usedImport) -> list (string * usedImport))
    (writeError : string -> error)
    (before after : list string) (file : string) (fs : FS)
    (st : FS * list string) (msg : string) :
  forRange before
    (processFile parser_ParseFile format_Source mapRange writeError targetFields)
    (fs, []) = Return st ->
  processFile parser_ParseFile format_Source mapRange writeError targetFields file st
    = Panic msg ->
  main parser_ParseFile format_Source mapRange writeError (before ++ file :: after) fs
    = Panic msg.
Proof.
  intros Hbefore Hfile. unfold main.
  by rewrite (forRange_panics_at _ _ _ _ _ _ _ Hbefore Hfile).
Qed.

Lemma panic_ends_the_run_witness :
  forRange [] (processFile (parsed funcFieldFile) formatAsIs rangeAsListed writable
                 targetFields) (∅, []) = Return (∅, []) /\
  processFile (parsed funcFieldFile) formatAsIs rangeAsListed writable targetFields
    "/w/t.go" (∅, []) = Panic "unsupported type: *ast.FuncType" /\
  main (parsed funcFieldFile) formatAsIs rangeAsListed writable
    ([] ++ "/w/t.go" :: ["/w/u.go"; "/w/v.go"]) ∅
    = Panic "unsupported type: *ast.FuncType".
Proof.
  assert (H2 : processFile (parsed funcFieldFile) formatAsIs rangeAsListed writable
                 targetFields "/w/t.go" (∅, [])
               = Panic "unsupported type: *ast.FuncType") by (by vm_compute).
  split; [reflexivity|]. split; [exact H2|].
  apply (panic_ends_the_run (parsed funcFieldFile) formatAsIs rangeAsListed writable
           [] ["/w/u.go"; "/w/v.go"] "/w/t.go" ∅ (∅, [])
           "unsupported type: *ast.FuncType" eq_refl H2).
Defined.

Lemma no_descriptors_printable (targets : list string) (ss : list ast.TypeSpec) :
  descriptors targets ss = [] -> printable targets ss = true.
Proof.
  induction ss as [|s ss IH]; [done|]. cbn [descriptors flat_map printable forallb].
  intros [Hs Hss]%app_eq_nil. fold (descriptors targets ss) in Hss.
  apply map_eq_nil in Hs. rewrite Hs. cbn [forallb andb]. by apply IH.
Qed.

(** X20.  A unit none of whose structs has a field declaration whose first
    name is a target is left alone: no type is printed, so no type can make
    the synthesis panic, nothing is written and no error is returned. *)
Theorem no_target_field_no_file
    (format_Source : string -> string + string)
    (mapRange : list (string * usedImport) -> list (string * usedImport))
    (writeError : string -> error)
    (t : targetStructs) (targets : list string) (fs : FS) :
  descriptors targets (structs t) = [] ->
  generateTargetSetter format_Source mapRange writeError t targets fs
  = Return (None, fs).
Proof.
  intros Hnone. unfold generateTargetSetter.
  rewrite (synthesize_returns _ _ (no_descriptors_printable _ _ Hnone)), Hnone.
  done.
Qed.

Lemma no_target_field_no_file_witness :
  descriptors targetFields
    [structOf "T" [ast.mkField ["Name"] (ast.FuncType [] []);
                   ast.mkField [] (ast.Ident "Base");
                   ast.mkField ["ID"; "CreatedAt"] (ast.StructType [])]] = [] /\
  generateTargetSetter formatAsIs rangeAsListed writable
    (withStructs noTargets
       [structOf "T" [ast.mkField ["Name"] (ast.FuncType [] []);
                      ast.mkField [] (ast.Ident "Base");
                      ast.mkField ["ID"; "CreatedAt"] (ast.StructType [])]])
    targetFields exampleDisk
  = Return (None, exampleDisk).
Proof.
  split; [reflexivity|].
  apply (no_target_field_no_file formatAsIs rangeAsListed writable
           (withStructs noTargets
              [structOf "T" [ast.mkField ["Name"] (ast.FuncType [] []);
                             ast.mkField [] (ast.Ident "Base");
                             ast.mkField ["ID"; "CreatedAt"] (ast.StructType [])]])
           targetFields exampleDisk eq_refl).
Defined.

(** X21.  Marking never panics: the result of [Split] has an element at
    index 0.  It leaves every entry of the imports map in place with its
    path, and sets no [used] flag back. *)
Theorem markImport_only_sets_used (fieldType : string)
    (importsMap : gmap string usedImport) :
  exists importsMap',
    markImport fieldType importsMap = Return importsMap' /\
    forall short,
      pkg <$> importsMap' !! short = pkg <$> importsMap !! short /\
      forall imp, importsMap !! short = Some imp -> used imp = true ->
        importsMap' !! short = Some imp.
Proof.
  exists (marked importsMap fieldType). split; [apply markImport_returns|].
  intros short. rewrite marked_lookup.
  destruct (decide (qualifier fieldType = Some short)) as [Hq|Hq]; [|done].
  destruct (importsMap !! short) as [imp|]; [|done]. split; [done|].
  intros imp' [= <-] Hused. simpl. f_equal. unfold setUsed.
  destruct imp as [p u]. simpl in *. by subst.
Qed.
